(** * AI Image Inpainting: the mask editor and the edit flow

    A shallow embedding of [src/components/ImageEditor.tsx] (the drawing
    surface and the mask export) and of the state handling of [src/App.tsx].

    The browser is the platform the code runs on.  Its 2D canvas is modelled
    the way raster back ends keep it: a bitmap of premultiplied 8-bit RGBA
    pixels combined with the Porter-Duff operators of the compositing
    standard.  What the platform leaves open (how a path is turned into
    coverage, how a PNG is compressed, how object URLs are named) is the
    interface [Platform]; every theorem holds for each instance of it.

    Numbers that are doubles in the source (pointer coordinates, scale
    factors) are rationals here: the model is exact where the source rounds
    to the nearest double, and it leaves out infinities and NaN, so the
    statements about coordinates suppose a display rectangle of positive
    size. *)

From Stdlib Require Import ZArith QArith List Bool String Ascii Lia Arith.
Import ListNotations.

Open Scope Z_scope.

(** ** Pixels and compositing *)

(** One canvas pixel, premultiplied, each channel on the scale 0..255. *)
Record pixel : Type := Pixel { pr : Z; pg : Z; pb : Z; pa : Z }.

Definition transparentBlack : pixel := Pixel 0 0 0 0.
Definition opaqueBlack : pixel := Pixel 0 0 0 255.
Definition opaqueWhite : pixel := Pixel 255 255 255 255.

Definition pixel_eqb (p q : pixel) : bool :=
  (pr p =? pr q) && (pg p =? pg q) && (pb p =? pb q) && (pa p =? pa q).

(** The product of two 8-bit fractions, rounded to the nearest 8-bit value. *)
Definition mul8 (x y : Z) : Z := (x * y + 127) / 255.

Definition scalePixel (p : pixel) (k : Z) : pixel :=
  Pixel (mul8 (pr p) k) (mul8 (pg p) k) (mul8 (pb p) k) (mul8 (pa p) k).

Definition addPixel (p q : pixel) : pixel :=
  Pixel (pr p + pr q) (pg p + pg q) (pb p + pb q) (pa p + pa q).

(** The values of [globalCompositeOperation] that the source uses. *)
Inductive compositeOp : Type :=
| SourceOver
| DestinationOut
| SourceAtop.

(** Porter-Duff on premultiplied pixels: [src] is drawn onto [dst]. *)
Definition composite (op : compositeOp) (src dst : pixel) : pixel :=
  match op with
  | SourceOver => addPixel src (scalePixel dst (255 - pa src))
  | DestinationOut => scalePixel dst (255 - pa src)
  | SourceAtop =>
      addPixel (scalePixel src (pa dst)) (scalePixel dst (255 - pa src))
  end.

(** A CSS colour as the canvas keeps it: straight (not premultiplied) 8-bit
    channels. *)
Record color : Type := Color { cr : Z; cg : Z; cb : Z; calpha : Z }.

Definition black : color := Color 0 0 0 255.          (* '#000000' *)
Definition white : color := Color 255 255 255 255.    (* '#FFFFFF', 'white' *)
(** 'rgba(255, 255, 255, 0.7)': 0.7 on the 8-bit scale is 178.5, kept as 179. *)
Definition brushTint : color := Color 255 255 255 179.

Definition premultiply (c : color) : pixel :=
  Pixel (mul8 (cr c) (calpha c)) (mul8 (cg c) (calpha c))
        (mul8 (cb c) (calpha c)) (calpha c).

(** ** Bitmaps *)

(** Row-major pixels of a canvas of [bw] columns and [bh] rows. *)
Record bitmap : Type := Bitmap { bw : nat; bh : nat; bpixels : list pixel }.

(** Reading a pixel; outside the bitmap it is transparent black, as
    [getImageData] reports it. *)
Definition getPixel (b : bitmap) (x y : nat) : pixel :=
  if ((x <? bw b) && (y <? bh b))%nat
  then nth (y * bw b + x) (bpixels b) transparentBlack
  else transparentBlack.

(** The bitmap of [w] by [h] pixels whose pixel at [(x, y)] is [f x y]. *)
Definition mkBitmap (w h : nat) (f : nat -> nat -> pixel) : bitmap :=
  Bitmap w h (map (fun i => f (i mod w)%nat (i / w)%nat) (seq 0 (w * h))).

(** The bitmap a canvas starts with: every pixel transparent black. *)
Definition blankBitmap (w h : nat) : bitmap :=
  Bitmap w h (repeat transparentBlack (w * h)).

Definition inRect (x y w h px py : nat) : bool :=
  ((x <=? px) && (px <? x + w) && (y <=? py) && (py <? y + h))%nat.

(** ** Paths and the canvas

    The path items the source builds: [moveTo], [lineTo] and the full circle
    [arc(x, y, r, 0, Math.PI * 2)]. *)
Inductive pathItem : Type :=
| MoveTo (x y : Q)
| LineTo (x y : Q)
| Circle (x y r : Q).

Inductive capStyle : Type := CapButt | CapRound | CapSquare.
Inductive joinStyle : Type := JoinMiter | JoinRound | JoinBevel.

(** A canvas element with the state of its 2D context. *)
Record canvas : Type := Canvas {
  bits : bitmap;
  globalCompositeOperation : compositeOp;
  strokeStyle : color;
  fillStyle : color;
  lineWidth : Q;
  lineCap : capStyle;
  lineJoin : joinStyle;
  path : list pathItem
}.

Definition cwidth (c : canvas) : nat := bw (bits c).
Definition cheight (c : canvas) : nat := bh (bits c).

(** A canvas of the given size in the state the platform gives a new context:
    transparent bitmap, 'source-over', black styles, line width 1. *)
Definition resetCanvas (w h : nat) : canvas :=
  Canvas (blankBitmap w h) SourceOver black black 1%Q CapButt JoinMiter [].

(** [document.createElement('canvas')]: 300 by 150 until sized. *)
Definition createCanvas : canvas := resetCanvas 300 150.

(** Assigning [width] or [height] replaces the bitmap by a transparent one
    and resets the context. *)
Definition set_width (w : nat) (c : canvas) : canvas := resetCanvas w (cheight c).
Definition set_height (h : nat) (c : canvas) : canvas := resetCanvas (cwidth c) h.

Definition set_bits (b : bitmap) (c : canvas) : canvas :=
  Canvas b (globalCompositeOperation c) (strokeStyle c) (fillStyle c)
         (lineWidth c) (lineCap c) (lineJoin c) (path c).
Definition set_globalCompositeOperation (op : compositeOp) (c : canvas) : canvas :=
  Canvas (bits c) op (strokeStyle c) (fillStyle c)
         (lineWidth c) (lineCap c) (lineJoin c) (path c).
Definition set_strokeStyle (k : color) (c : canvas) : canvas :=
  Canvas (bits c) (globalCompositeOperation c) k (fillStyle c)
         (lineWidth c) (lineCap c) (lineJoin c) (path c).
Definition set_fillStyle (k : color) (c : canvas) : canvas :=
  Canvas (bits c) (globalCompositeOperation c) (strokeStyle c) k
         (lineWidth c) (lineCap c) (lineJoin c) (path c).
(** A line width that is not positive is ignored. *)
Definition set_lineWidth (w : Q) (c : canvas) : canvas :=
  if Qle_bool w 0 then c
  else Canvas (bits c) (globalCompositeOperation c) (strokeStyle c) (fillStyle c)
              w (lineCap c) (lineJoin c) (path c).
Definition set_lineCap (k : capStyle) (c : canvas) : canvas :=
  Canvas (bits c) (globalCompositeOperation c) (strokeStyle c) (fillStyle c)
         (lineWidth c) k (lineJoin c) (path c).
Definition set_lineJoin (k : joinStyle) (c : canvas) : canvas :=
  Canvas (bits c) (globalCompositeOperation c) (strokeStyle c) (fillStyle c)
         (lineWidth c) (lineCap c) k (path c).
Definition set_path (p : list pathItem) (c : canvas) : canvas :=
  Canvas (bits c) (globalCompositeOperation c) (strokeStyle c) (fillStyle c)
         (lineWidth c) (lineCap c) (lineJoin c) p.

Definition beginPath (c : canvas) : canvas := set_path [] c.
Definition moveTo (x y : Q) (c : canvas) : canvas :=
  set_path (path c ++ [MoveTo x y]) c.
Definition lineTo (x y : Q) (c : canvas) : canvas :=
  set_path (path c ++ [LineTo x y]) c.
(** [arc(x, y, r, 0, Math.PI * 2)] *)
Definition arc (x y r : Q) (c : canvas) : canvas :=
  set_path (path c ++ [Circle x y r]) c.

(** [fillRect] and [clearRect] on a rectangle of whole pixels: the pixels of
    the rectangle are covered in full, the others are left as they are. *)
Definition fillRect (x y w h : nat) (c : canvas) : canvas :=
  set_bits
    (mkBitmap (cwidth c) (cheight c) (fun px py =>
       if inRect x y w h px py
       then composite (globalCompositeOperation c) (premultiply (fillStyle c))
                      (getPixel (bits c) px py)
       else getPixel (bits c) px py))
    c.

Definition clearRect (x y w h : nat) (c : canvas) : canvas :=
  set_bits
    (mkBitmap (cwidth c) (cheight c) (fun px py =>
       if inRect x y w h px py then transparentBlack
       else getPixel (bits c) px py))
    c.

(** [ctx.drawImage(src, dx, dy)] once the source has been found usable: a
    decoded image, or a canvas that has pixels ([hasPixels] below; for a
    canvas with a width or a height of 0 the call throws and draws
    nothing).  The source is drawn pixel for pixel, composited with the
    operator of the DESTINATION context; the context state of the source
    plays no part. *)
Definition drawImage (src : bitmap) (dx dy : nat) (c : canvas) : canvas :=
  set_bits
    (mkBitmap (cwidth c) (cheight c) (fun px py =>
       if inRect dx dy (bw src) (bh src) px py
       then composite (globalCompositeOperation c)
                      (getPixel src (px - dx) (py - dy))
                      (getPixel (bits c) px py)
       else getPixel (bits c) px py))
    c.

(** The check that [drawImage] makes of a canvas it is given as its source:
    a canvas with a width or a height of 0 is not usable. *)
Definition hasPixels (c : canvas) : bool :=
  negb ((cwidth c =? 0) || (cheight c =? 0))%nat.

(** ** Calls that can throw *)

(** What a [throw] throws: an [Error] with its message, or another value. *)
Inductive thrown : Type :=
| ErrorWith (message : string)
| NotAnError.

(** How a call ends: it returns, or it throws. *)
Inductive outcome (A : Type) : Type :=
| Returned (a : A)
| Threw (t : thrown).
Arguments Returned {A} a.
Arguments Threw {A} t.

(** ** Files and the platform *)

(** An uploaded [File]: its MIME type as the browser reports it, and its
    bytes. *)
Record file : Type := File { fileType : string; fileBytes : list Byte.byte }.

(** What the browser decides and the source does not: the coverage (0..255)
    of a pixel by the inside of a path and by its stroked outline, the image
    decoder, the PNG encoder, base64, the naming of object URLs, and the
    message of the [InvalidStateError] that [drawImage] throws when its
    source is a canvas with a width or a height of 0. *)
Class Platform : Type := {
  fillCoverage : list pathItem -> nat -> nat -> Z;
  strokeCoverage : list pathItem -> Q -> capStyle -> joinStyle -> nat -> nat -> Z;
  decodeImage : list Byte.byte -> option bitmap;
  encodePNG : bitmap -> list Byte.byte;
  base64 : list Byte.byte -> string;
  createObjectURL : file -> string;
  emptyCanvasMessage : string
}.

(** ** The image editor (src/components/ImageEditor.tsx) *)

Record touchPoint : Type := Touch { clientX : Q; clientY : Q }.

(** The pointer events the drawing canvas listens to.  A [touchstart] or
    [touchmove] event carries at least the touch that caused it, so
    [touches[0]] is always there. *)
Inductive pointerEvent : Type :=
| MouseEvent (offsetX offsetY : Q)
| TouchEvent (touch0 : touchPoint) (others : list touchPoint).

(** [canvas.getBoundingClientRect()]: where the canvas is on the screen and
    how large it is displayed. *)
Record domRect : Type := DomRect {
  rectLeft : Q; rectTop : Q; rectWidth : Q; rectHeight : Q
}.

Definition point : Type := (Q * Q)%type.

(** The refs and the state of one mounted [ImageEditor]. *)
Record editor : Type := Editor {
  imageCanvas : canvas;
  drawingCanvas : canvas;
  imageRef : option bitmap;
  isDrawing : bool;
  lastPointRef : option point;
  brushSize : Z
}.

Definition set_imageCanvas (c : canvas) (s : editor) : editor :=
  Editor c (drawingCanvas s) (imageRef s) (isDrawing s) (lastPointRef s) (brushSize s).
Definition set_drawingCanvas (c : canvas) (s : editor) : editor :=
  Editor (imageCanvas s) c (imageRef s) (isDrawing s) (lastPointRef s) (brushSize s).
Definition set_imageRef (i : option bitmap) (s : editor) : editor :=
  Editor (imageCanvas s) (drawingCanvas s) i (isDrawing s) (lastPointRef s) (brushSize s).
Definition setIsDrawing (b : bool) (s : editor) : editor :=
  Editor (imageCanvas s) (drawingCanvas s) (imageRef s) b (lastPointRef s) (brushSize s).
Definition set_lastPointRef (p : option point) (s : editor) : editor :=
  Editor (imageCanvas s) (drawingCanvas s) (imageRef s) (isDrawing s) p (brushSize s).
Definition setBrushSize (n : Z) (s : editor) : editor :=
  Editor (imageCanvas s) (drawingCanvas s) (imageRef s) (isDrawing s) (lastPointRef s) n.

(** The editor as it is mounted: two unsized canvases, no stroke in progress,
    [useState(40)] for the brush. *)
Definition initialEditor : editor :=
  Editor createCanvas createCanvas None false None 40.

(** The value of an [<input type="range" min max>] when [requested] is asked
    of it: the control keeps its value between [min] and [max] (the value
    sanitization of the range state), whatever the pointer, the keyboard or a
    script asks for. *)
Definition rangeValue (min max requested : Z) : Z :=
  if requested <? min then min
  else if max <? requested then max
  else requested.

(** The point of an event in the coordinates of the bitmap: lines 27 to 38 of
    [drawOnCanvas]. *)
Definition eventPoint (canvas : canvas) (rect : domRect) (e : pointerEvent) : point :=
  let scaleX := (inject_Z (Z.of_nat (cwidth canvas)) / rectWidth rect)%Q in
  let scaleY := (inject_Z (Z.of_nat (cheight canvas)) / rectHeight rect)%Q in
  match e with
  | TouchEvent t _ =>
      (((clientX t - rectLeft rect) * scaleX)%Q,
       ((clientY t - rectTop rect) * scaleY)%Q)
  | MouseEvent offsetX offsetY =>
      ((offsetX * scaleX)%Q, (offsetY * scaleY)%Q)
  end.

Section ImageEditor.
Context {platform : Platform}.

(** Painting a colour through a coverage onto one pixel. *)
Definition paintPixel (op : compositeOp) (k : color) (coverage : Z)
           (dst : pixel) : pixel :=
  composite op (scalePixel (premultiply k) coverage) dst.

(** [ctx.fill()] *)
Definition fill (c : canvas) : canvas :=
  set_bits
    (mkBitmap (cwidth c) (cheight c) (fun px py =>
       paintPixel (globalCompositeOperation c) (fillStyle c)
                  (fillCoverage (path c) px py)
                  (getPixel (bits c) px py)))
    c.

(** [ctx.stroke()] *)
Definition stroke (c : canvas) : canvas :=
  set_bits
    (mkBitmap (cwidth c) (cheight c) (fun px py =>
       paintPixel (globalCompositeOperation c) (strokeStyle c)
                  (strokeCoverage (path c) (lineWidth c) (lineCap c)
                                  (lineJoin c) px py)
                  (getPixel (bits c) px py)))
    c.

(** [canvas.toDataURL('image/png')]; a bitmap without pixels gives
    'data:,'. *)
Definition toDataURL (c : canvas) : string :=
  if ((cwidth c =? 0) || (cheight c =? 0))%nat then "data:,"%string
  else ("data:image/png;base64," ++ base64 (encodePNG (bits c)))%string.

(** [drawOnCanvas]; [rect] is what [getBoundingClientRect] answers at the
    time of the event.  The canvas of a mounted editor and its 2D context
    are there, so the two early returns of the source are not taken. *)
Definition drawOnCanvas (rect : domRect) (e : pointerEvent) (s : editor) : editor :=
  let canvas := drawingCanvas s in
  let '(currentX, currentY) := eventPoint canvas rect e in
  let ctx := canvas in
  let ctx := set_strokeStyle brushTint ctx in
  let ctx := set_fillStyle brushTint ctx in
  let ctx := set_lineWidth (inject_Z (brushSize s)) ctx in
  let ctx := set_lineCap CapRound ctx in
  let ctx := set_lineJoin JoinRound ctx in
  let ctx :=
    match lastPointRef s with
    | Some (lastX, lastY) =>
        let ctx := beginPath ctx in
        let ctx := moveTo lastX lastY ctx in
        let ctx := lineTo currentX currentY ctx in
        stroke ctx
    | None => ctx
    end in
  (* Draw a circle at the current point to fill gaps *)
  let ctx := beginPath ctx in
  let ctx := arc currentX currentY (inject_Z (brushSize s) / 2)%Q ctx in
  let ctx := fill ctx in
  set_lastPointRef (Some (currentX, currentY)) (set_drawingCanvas ctx s).

Definition startDrawing (rect : domRect) (e : pointerEvent) (s : editor) : editor :=
  let s := setIsDrawing true s in
  let s := set_lastPointRef None s in (* Reset last point *)
  drawOnCanvas rect e s.

Definition stopDrawing (s : editor) : editor :=
  let s := setIsDrawing false s in
  set_lastPointRef None s.

Definition handleDrawing (rect : domRect) (e : pointerEvent) (s : editor) : editor :=
  if negb (isDrawing s) then s
  else drawOnCanvas rect e s.

(** [image.onload] of the effect on [imageSrc]: both canvases take the
    size of the image and the image is drawn on the image canvas. *)
Definition imageLoaded (image : bitmap) (s : editor) : editor :=
  let s := set_imageRef (Some image) s in
  let s := set_imageCanvas
             (set_height (bh image) (set_width (bw image) (imageCanvas s))) s in
  let s := set_drawingCanvas
             (set_height (bh image) (set_width (bw image) (drawingCanvas s))) s in
  set_imageCanvas (drawImage image 0 0 (imageCanvas s)) s.

(** The effect on [imageSrc]: the image is fetched from the object URL of
    the file and decoded; [onload] runs when that succeeds.  There is no
    [onerror] handler: when the bytes do not decode nothing happens. *)
Definition loadImage (f : file) (s : editor) : editor :=
  match decodeImage (fileBytes f) with
  | Some image => imageLoaded image s
  | None => s
  end.

Definition clearMask (s : editor) : editor :=
  let canvas := drawingCanvas s in
  let ctx := clearRect 0 0 (cwidth canvas) (cheight canvas) canvas in
  set_drawingCanvas ctx s.

(** The [onChange] of the brush slider, [<input type="range" min="5"
    max="150">]: [e.target.value] is the decimal text of the value the
    control has taken, and [parseInt] reads that integer back. *)
Definition onBrushSizeChange (requested : Z) (s : editor) : editor :=
  setBrushSize (rangeValue 5 150 requested) s.

(** The drawing steps of [getMaskAsBase64], for a drawing canvas that
    [drawImage] takes as a source (one with pixels): the mask canvas and the
    drawing canvas as the function leaves them. *)
Definition renderMask (drawingCanvas : canvas) : canvas * canvas :=
  let maskCanvas := createCanvas in
  let maskCanvas := set_width (cwidth drawingCanvas) maskCanvas in
  let maskCanvas := set_height (cheight drawingCanvas) maskCanvas in
  let maskCtx := maskCanvas in
  let maskCtx := set_fillStyle black maskCtx in
  let maskCtx := fillRect 0 0 (cwidth maskCanvas) (cheight maskCanvas) maskCtx in

  let maskCtx := set_globalCompositeOperation DestinationOut maskCtx in
  let maskCtx := drawImage (bits drawingCanvas) 0 0 maskCtx in

  let maskCtx := set_globalCompositeOperation SourceOver maskCtx in
  let maskCtx := set_strokeStyle white maskCtx in
  let maskCtx := set_fillStyle white maskCtx in
  let drawingCtx := drawingCanvas in
  (* Re-draw with solid white color on the mask *)
  let originalCompositeOp := globalCompositeOperation drawingCtx in
  let originalStroke := strokeStyle drawingCtx in
  let originalFill := fillStyle drawingCtx in

  let drawingCtx := set_globalCompositeOperation SourceAtop drawingCtx in
  let drawingCtx := set_strokeStyle white drawingCtx in
  let drawingCtx := set_fillStyle white drawingCtx in

  let maskCtx := drawImage (bits drawingCtx) 0 0 maskCtx in

  let drawingCtx := set_globalCompositeOperation originalCompositeOp drawingCtx in
  let drawingCtx := set_strokeStyle originalStroke drawingCtx in
  let drawingCtx := set_fillStyle originalFill drawingCtx in
  (maskCtx, drawingCtx).

(** [getMaskAsBase64] of the handle; [None] stands for an editor that is
    not mounted ([drawingCanvasRef.current] is null).  The first
    [maskCtx.drawImage(drawingCanvas, 0, 0)] throws when the drawing canvas
    has no pixels: by then only the mask canvas, which is local to the call,
    has been written, so the editor is as it was. *)
Definition getMaskAsBase64 (s : option editor) : outcome string * option editor :=
  match s with
  | None => (Returned ""%string, None)
  | Some s =>
      if hasPixels (drawingCanvas s) then
        let '(maskCanvas, drawingCanvas) := renderMask (drawingCanvas s) in
        (Returned (toDataURL maskCanvas), Some (set_drawingCanvas drawingCanvas s))
      else (Threw (ErrorWith emptyCanvasMessage), Some s)
  end.

End ImageEditor.

(** ** The application (src/App.tsx) *)

(** Modelled from the spec: the enumeration [AppState] of [src/types.ts],
    which is not among the sources.  The spec speaks of the UI flow "upload,
    edit, generate, result"; the members are the five that [App.tsx] names. *)
Inductive AppState : Type :=
| UPLOADING
| EDITING
| GENERATING
| DISPLAYING_RESULT
| ERROR.

(** Text the user types: a JavaScript string, as its UTF-16 code units. *)
Definition jsstring : Type := list N.

(** The code units that [String.prototype.trim] strips: the white space and
    the line terminators of ECMAScript. *)
Definition isWhiteSpace (c : N) : bool :=
  ((c =? 9) || (c =? 10) || (c =? 11) || (c =? 12) || (c =? 13) || (c =? 32)
   || (c =? 160) || (c =? 5760) || ((8192 <=? c) && (c <=? 8202))
   || (c =? 8232) || (c =? 8233) || (c =? 8239) || (c =? 8287)
   || (c =? 12288) || (c =? 65279))%N.

Fixpoint trimStart (s : jsstring) : jsstring :=
  match s with
  | [] => []
  | c :: rest => if isWhiteSpace c then trimStart rest else s
  end.

Definition trimEnd (s : jsstring) : jsstring := rev (trimStart (rev s)).

Definition trim (s : jsstring) : jsstring := trimEnd (trimStart s).

(** A string is truthy when it is not empty. *)
Definition truthy (s : jsstring) : bool :=
  match s with [] => false | _ :: _ => true end.

(** [s.includes(sub)] *)
Fixpoint includes (s sub : string) : bool :=
  if String.prefix sub s then true
  else match s with
       | EmptyString => false
       | String _ rest => includes rest sub
       end.

(** [file.type.startsWith('image/')] *)
Definition startsWith (s pre : string) : bool := String.prefix pre s.

Record uploaded : Type := Uploaded { upFile : file; upUrl : string }.

(** The state of [App] and the ref to the editor it renders. *)
Record app : Type := App {
  appState : AppState;
  originalImage : option uploaded;
  editedImageUrl : option string;
  prompt : jsstring;
  error : option string;
  imageEditorRef : option editor
}.

Definition setAppState (a : AppState) (st : app) : app :=
  App a (originalImage st) (editedImageUrl st) (prompt st) (error st) (imageEditorRef st).
Definition setOriginalImage (o : option uploaded) (st : app) : app :=
  App (appState st) o (editedImageUrl st) (prompt st) (error st) (imageEditorRef st).
Definition setEditedImageUrl (u : option string) (st : app) : app :=
  App (appState st) (originalImage st) u (prompt st) (error st) (imageEditorRef st).
Definition setPrompt (p : jsstring) (st : app) : app :=
  App (appState st) (originalImage st) (editedImageUrl st) p (error st) (imageEditorRef st).
Definition setError (e : option string) (st : app) : app :=
  App (appState st) (originalImage st) (editedImageUrl st) (prompt st) e (imageEditorRef st).
Definition set_imageEditorRef (r : option editor) (st : app) : app :=
  App (appState st) (originalImage st) (editedImageUrl st) (prompt st) (error st) r.

Definition initialApp : app := App UPLOADING None None [] None None.

(** One call of [editImageWithMask]: the file whose data URL and MIME type
    make the first argument, the mask data URL of the second, and the
    prompt. *)
Record serviceCall : Type := ServiceCall {
  callImage : file;
  callMask : string;
  callPrompt : jsstring
}.

Section Application.
Context {platform : Platform}.
Local Open Scope string_scope.

Definition handleImageUpload (f : file) (st : app) : app :=
  if startsWith (fileType f) "image/" then
    let imageUrl := createObjectURL f in
    let st := setOriginalImage (Some (Uploaded f imageUrl)) st in
    let st := setAppState EDITING st in
    setError None st
  else
    setError (Some "Please upload a valid image file (PNG, JPG, etc.).") st.

(** [handleGenerate] up to the point where it hands over to the file
    reader: the new state, and the service call that the [onloadend]
    callback makes, if the function gets that far.  What the callback does
    when the service has answered is [generationDone] below.  In the body of
    the [try] only [getMaskAsBase64] can throw; a [DOMException] is an
    [Error], so the [catch] shows its message. *)
Definition handleGenerate (st : app) : app * option serviceCall :=
  if negb (truthy (trim (prompt st))) then
    (setError (Some "Please enter a description of the edit you want to make.") st,
     None)
  else
    match originalImage st, imageEditorRef st with
    | Some original, Some ed =>
        let st := setAppState GENERATING st in
        let st := setError None st in
        match getMaskAsBase64 (Some ed) with
        | (Returned maskDataUrl, ed') =>
            let st := set_imageEditorRef ed' st in
            if negb (includes maskDataUrl "data:image/png;base64,") then
              (* Check if mask is empty *)
              let st := setError
                (Some "Please select an area on the image to edit by drawing on it.") st in
              let st := setAppState EDITING st in
              (st, None)
            else
              (st, Some (ServiceCall (upFile original) maskDataUrl (prompt st)))
        | (Threw err, ed') =>
            let st := set_imageEditorRef ed' st in
            let errorMessage :=
              match err with
              | ErrorWith message => message
              | NotAnError => "An unknown error occurred."
              end in
            let st := setError (Some ("Generation failed: " ++ errorMessage)) st in
            let st := setAppState ERROR st in
            (st, None)
        end
    | _, _ => (st, None)
    end.

(** The rest of the [onloadend] callback, once the service has answered. *)
Definition generationDone (resultUrl : string) (st : app) : app :=
  let st := setEditedImageUrl (Some resultUrl) st in
  setAppState DISPLAYING_RESULT st.

(** [startOver]; releasing the object URL changes nothing of this state. *)
Definition startOver (st : app) : app :=
  let st := setAppState UPLOADING st in
  let st := setOriginalImage None st in
  let st := setEditedImageUrl None st in
  let st := setPrompt [] st in
  setError None st.

(** What [renderContent] does to the editor: it is rendered in the states
    [EDITING] and [ERROR] when there is an image, and in no other; a newly
    rendered editor runs its effect on [imageSrc]. *)
Definition render (st : app) : app :=
  match appState st, originalImage st with
  | (EDITING | ERROR), Some original =>
      match imageEditorRef st with
      | Some _ => st
      | None => set_imageEditorRef (Some (loadImage (upFile original) initialEditor)) st
      end
  | _, _ => set_imageEditorRef None st
  end.

End Application.

(** ** The events of the editor

    The bindings of the JSX: [onMouseDown] and [onTouchStart] are
    [startDrawing]; [onMouseMove] and [onTouchMove] are [handleDrawing];
    [onMouseUp], [onMouseLeave] and [onTouchEnd] are [stopDrawing]; the
    slider and the button "Clear Mask"; and the call of the handle. *)
Inductive editorEvent : Type :=
| PointerDown (rect : domRect) (e : pointerEvent)
| PointerMove (rect : domRect) (e : pointerEvent)
| PointerUp
| BrushSlider (requested : Z)
| ClearClick
| MaskRequest.

(** The events bound to a stroke operation that paints, or to "clear". *)
Definition paints (ev : editorEvent) : bool :=
  match ev with
  | PointerDown _ _ | PointerMove _ _ | ClearClick => true
  | PointerUp | BrushSlider _ | MaskRequest => false
  end.

Section EditorEvents.
Context {platform : Platform}.

Definition editorStep (ev : editorEvent) (s : editor) : editor :=
  match ev with
  | PointerDown rect e => startDrawing rect e s
  | PointerMove rect e => handleDrawing rect e s
  | PointerUp => stopDrawing s
  | BrushSlider requested => onBrushSizeChange requested s
  | ClearClick => clearMask s
  | MaskRequest =>
      match snd (getMaskAsBase64 (Some s)) with
      | Some s' => s'
      | None => s
      end
  end.

Definition editorRun (evs : list editorEvent) (s : editor) : editor :=
  fold_left (fun s ev => editorStep ev s) evs s.

End EditorEvents.

(** ** Notions the statements use *)

(** The point of an event relative to the displayed canvas, in display
    pixels: the offsets of a mouse event, the client position of a touch
    less the corner of the canvas. *)
Definition displayPoint (rect : domRect) (e : pointerEvent) : point :=
  match e with
  | MouseEvent offsetX offsetY => (offsetX, offsetY)
  | TouchEvent t _ =>
      ((clientX t - rectLeft rect)%Q, (clientY t - rectTop rect)%Q)
  end.

(** The all-black image of [w] by [h] pixels. *)
Definition allBlack (w h : nat) : bitmap := mkBitmap w h (fun _ _ => opaqueBlack).

(** What the three drawing steps of the export make of one pixel [s] of the
    stroke layer: black is filled in, the stroke pixel is punched out of it
    ('destination-out') and then drawn over what is left ('source-over'). *)
Definition maskPixel (s : pixel) : pixel :=
  composite SourceOver s
    (composite DestinationOut s
       (composite SourceOver (premultiply black) transparentBlack)).

(** A premultiplied pixel: no colour channel above the alpha. *)
Definition validPixel (p : pixel) : Prop :=
  0 <= pa p <= 255 /\ 0 <= pr p <= pa p /\ 0 <= pg p <= pa p /\ 0 <= pb p <= pa p.

(** The brush sizes the slider offers. *)
Definition brushInRange (s : editor) : Prop := 5 <= brushSize s <= 150.

Section PaintedShapes.
Context {platform : Platform}.

(** The stamp of [drawOnCanvas] on a context [c]: the circle of the brush
    at [pt], filled in the brush tint over the pixels of [c]. *)
Definition stamped (c : canvas) (pt : point) (brush : Z) : bitmap :=
  mkBitmap (cwidth c) (cheight c) (fun px py =>
    paintPixel (globalCompositeOperation c) brushTint
      (fillCoverage [Circle (fst pt) (snd pt) (inject_Z brush / 2)%Q] px py)
      (getPixel (bits c) px py)).

(** The segment of [drawOnCanvas] on a context [c]: the line from [last]
    to [pt], stroked in the brush tint with the width the context has
    after [lineWidth = brush]. *)
Definition bridged (c : canvas) (last pt : point) (brush : Z) : bitmap :=
  mkBitmap (cwidth c) (cheight c) (fun px py =>
    paintPixel (globalCompositeOperation c) brushTint
      (strokeCoverage [MoveTo (fst last) (snd last); LineTo (fst pt) (snd pt)]
         (lineWidth (set_lineWidth (inject_Z brush) c)) CapRound JoinRound px py)
      (getPixel (bits c) px py)).

End PaintedShapes.

(** ** A plain platform

    An instance of the interface to run the model on: a rasterizer without
    antialiasing (a pixel is covered when its centre is), a raw container in
    place of the image formats, and base64 as RFC 4648 has it. *)

Definition sq (q : Q) : Q := (q * q)%Q.

Definition pixelCentre (px py : nat) : point :=
  ((inject_Z (Z.of_nat px) + (1 # 2))%Q, (inject_Z (Z.of_nat py) + (1 # 2))%Q).

Definition dist2 (p q : point) : Q :=
  (sq (fst p - fst q) + sq (snd p - snd q))%Q.

(** The squared distance of [p] to the segment from [a] to [b]. *)
Definition segmentDist2 (a b p : point) : Q :=
  let len2 := dist2 a b in
  if Qle_bool len2 0 then dist2 a p
  else
    let t := (((fst p - fst a) * (fst b - fst a)
               + (snd p - snd a) * (snd b - snd a)) / len2)%Q in
    let t := if Qle_bool t 0 then 0%Q else if Qle_bool 1 t then 1%Q else t in
    dist2 p ((fst a + t * (fst b - fst a))%Q, (snd a + t * (snd b - snd a))%Q).

Definition plainFillCoverage (p : list pathItem) (px py : nat) : Z :=
  if existsb (fun item =>
                match item with
                | Circle x y r => Qle_bool (dist2 (pixelCentre px py) (x, y)) (sq r)
                | MoveTo _ _ | LineTo _ _ => false
                end) p
  then 255 else 0.

(** The segments of a path: from each point to the [lineTo] after it. *)
Fixpoint segmentsFrom (cur : option point) (p : list pathItem) : list (point * point) :=
  match p with
  | [] => []
  | MoveTo x y :: rest => segmentsFrom (Some (x, y)) rest
  | LineTo x y :: rest =>
      match cur with
      | Some a => (a, (x, y)) :: segmentsFrom (Some (x, y)) rest
      | None => segmentsFrom (Some (x, y)) rest
      end
  | Circle _ _ _ :: rest => segmentsFrom None rest
  end.

(** Round caps and joins: a pixel is on the stroke when its centre is within
    half the line width of a segment. *)
Definition plainStrokeCoverage (p : list pathItem) (w : Q) (cap : capStyle)
           (join : joinStyle) (px py : nat) : Z :=
  if existsb (fun ab => Qle_bool (segmentDist2 (fst ab) (snd ab) (pixelCentre px py))
                                 (sq (w / 2)))
             (segmentsFrom None p)
  then 255 else 0.

Definition byteOfZ (z : Z) : Byte.byte :=
  match Byte.of_N (Z.to_N (z mod 256)) with
  | Some b => b
  | None => Byte.x00
  end.

Definition zOfByte (b : Byte.byte) : Z := Z.of_N (Byte.to_N b).

(** The raw container: one byte of width, one of height, then four bytes
    (red, green, blue, alpha, not premultiplied) for each pixel. *)
Definition rawPixelAt (body : list Byte.byte) (i : nat) : pixel :=
  let ch k := zOfByte (nth (4 * i + k) body Byte.x00) in
  premultiply (Color (ch 0%nat) (ch 1%nat) (ch 2%nat) (ch 3%nat)).

Definition rawDecode (bytes : list Byte.byte) : option bitmap :=
  match bytes with
  | wb :: hb :: body =>
      let w := Z.to_nat (zOfByte wb) in
      let h := Z.to_nat (zOfByte hb) in
      if ((0 <? w) && (0 <? h) && (List.length body =? 4 * (w * h)))%nat
      then Some (mkBitmap w h (fun x y => rawPixelAt body (y * w + x)))
      else None
  | _ => None
  end.

Definition unpremultiply (c a : Z) : Z := if a =? 0 then 0 else (c * 255 + a / 2) / a.

Definition rawEncode (b : bitmap) : list Byte.byte :=
  byteOfZ (Z.of_nat (bw b)) :: byteOfZ (Z.of_nat (bh b))
  :: flat_map (fun p => [byteOfZ (unpremultiply (pr p) (pa p));
                         byteOfZ (unpremultiply (pg p) (pa p));
                         byteOfZ (unpremultiply (pb p) (pa p));
                         byteOfZ (pa p)])
              (bpixels b).

Definition base64Alphabet : string :=
  "ABCDEFGHIJKLMNOPQRSTUVWXYZabcdefghijklmnopqrstuvwxyz0123456789+/".

Definition sextet (n : Z) : ascii :=
  match String.get (Z.to_nat (n mod 64)) base64Alphabet with
  | Some c => c
  | None => "="%char
  end.

Fixpoint rfc4648 (bytes : list Byte.byte) : string :=
  match bytes with
  | [] => EmptyString
  | [a] =>
      let n := zOfByte a * 65536 in
      String (sextet (n / 262144)) (String (sextet (n / 4096)) "=="%string)
  | [a; b] =>
      let n := zOfByte a * 65536 + zOfByte b * 256 in
      String (sextet (n / 262144))
        (String (sextet (n / 4096)) (String (sextet (n / 64)) "="%string))
  | a :: b :: c :: rest =>
      let n := zOfByte a * 65536 + zOfByte b * 256 + zOfByte c in
      String (sextet (n / 262144))
        (String (sextet (n / 4096))
           (String (sextet (n / 64)) (String (sextet n) (rfc4648 rest))))
  end.

Definition plainPlatform : Platform := {|
  fillCoverage := plainFillCoverage;
  strokeCoverage := plainStrokeCoverage;
  decodeImage := rawDecode;
  encodePNG := rawEncode;
  base64 := rfc4648;
  createObjectURL := fun f => ("blob:" ++ fileType f)%string;
  emptyCanvasMessage := "The image argument is a canvas element with a width or height of 0."
|}.

(** *** Sample data *)

(** A canvas shown at 100 by 100 display pixels, its corner at (10, 20). *)
Definition sampleRect : domRect := DomRect 10 20 100 100.

(** A raw image of 2 by 1 pixels, one red and one green, named as a PNG. *)
Definition sampleImage : file :=
  File "image/png"
       [Byte.x02; Byte.x01;
        Byte.xff; Byte.x00; Byte.x00; Byte.xff;
        Byte.x00; Byte.xff; Byte.x00; Byte.xff].

(** The editor once that image has loaded, nothing drawn yet. *)
Definition sampleEditor : editor :=
  @loadImage plainPlatform sampleImage initialEditor.

(** A file that says it is a PNG and whose bytes are no image. *)
Definition brokenPng : file := File "image/png" [Byte.x00].

(** A raw image of 1 by 1 pixel that comes without a MIME type. *)
Definition untypedImage : file :=
  File "" [Byte.x01; Byte.x01; Byte.xff; Byte.x00; Byte.x00; Byte.xff].

(** The application after the upload of the sample image, the editor
    rendered, the prompt "ok" typed and nothing drawn on the mask. *)
Definition sampleApp : app :=
  setPrompt [111%N; 107%N]
    (@render plainPlatform (@handleImageUpload plainPlatform sampleImage initialApp)).

(** A touch at the middle of the displayed canvas. *)
Definition sampleTouch : pointerEvent := TouchEvent (Touch 60 70) [].

(** The editor after one tap with the default brush: a single stamp. *)
Definition stampedEditor : editor :=
  @startDrawing plainPlatform sampleRect sampleTouch sampleEditor.

(** The same application with a prompt of a space, a tab, a line feed and a
    no-break space. *)
Definition blankPromptApp : app := setPrompt [32%N; 9%N; 10%N; 160%N] sampleApp.

(** ** The inpainting service (src/unnamed/part_000, which [App.tsx]
    imports as './services/geminiService') *)

(** [s.split(sep)] for a separator of one character. *)
Fixpoint split (sep : ascii) (s : string) : list string :=
  match s with
  | EmptyString => [EmptyString]
  | String c rest =>
      if Ascii.eqb c sep then EmptyString :: split sep rest
      else match split sep rest with
           | piece :: pieces => String c piece :: pieces
           | [] => [String c EmptyString]
           end
  end.

(** The [inlineData] of a part of the request; [None] is the [undefined]
    that [split(",")[1]] gives for a string without a comma. *)
Record inlineData : Type := InlineData {
  inlineBytes : option string;
  inlineMimeType : string
}.

Definition fileToGenerativePart (base64Data mimeType : string) : inlineData :=
  InlineData (nth_error (split ","%char base64Data) 1) mimeType.

(** What [generateContent] is called with: the model and the three parts. *)
Record generateRequest : Type := GenerateRequest {
  requestModel : string;
  requestOriginal : inlineData;
  requestMask : inlineData;
  requestText : jsstring
}.

(** A part of the answer: text, inline data (its data and its MIME type),
    or both. *)
Record answerPart : Type := AnswerPart {
  partText : option string;
  partInlineData : option (string * string)
}.

(** The answer of the service, as far as the code reads it: the parts of the
    content of each candidate. *)
Record answer : Type := Answer { candidates : list (list answerPart) }.

(** ASCII text as code units. *)
Definition codeUnits (s : string) : jsstring :=
  map N_of_ascii (list_ascii_of_string s).

Definition lineFeed : string := String (ascii_of_nat 10) EmptyString.
Definition doubleQuote : string := String (ascii_of_nat 34) EmptyString.

(** The template of [finalPrompt], with the instruction of the user put
    between the quotes as it is. *)
Definition finalPrompt (prompt : jsstring) : jsstring :=
  (codeUnits
     (lineFeed
      ++ "    You are an expert image editor. Use the provided original image and the mask image to perform an inpainting task."
      ++ lineFeed
      ++ "    The second image provided is a mask. The white area in the mask indicates the region of the first image (the original image) that needs to be edited."
      ++ lineFeed
      ++ "    Do not change any area outside the masked region."
      ++ lineFeed
      ++ "    The user's instruction for the edit is: " ++ doubleQuote)%string
   ++ prompt
   ++ codeUnits
        (doubleQuote ++ "."
         ++ lineFeed
         ++ "    Generate the edited image with the highest possible quality and realism, ensuring a seamless blend between the edited and unedited parts."
         ++ lineFeed
         ++ "  ")%string)%list.

(** The first part of the answer that has inline data. *)
Fixpoint firstInlineData (parts : list answerPart) : option (string * string) :=
  match parts with
  | [] => None
  | part :: rest =>
      match partInlineData part with
      | Some found => Some found
      | None => firstInlineData rest
      end
  end.

(** The body of the [try] of [editImageWithMask] after the answer has
    come.  Reading [candidates[0]] of an answer without candidates is a
    [TypeError] of the engine; [typeError] is the message it carries. *)
Definition readAnswer (typeError : string) (response : answer) : outcome string :=
  match candidates response with
  | [] => Threw (ErrorWith typeError)
  | parts :: _ =>
      match firstInlineData parts with
      | Some (base64ImageBytes, mimeType) =>
          Returned ("data:" ++ mimeType ++ ";base64," ++ base64ImageBytes)%string
      | None => Threw (ErrorWith "No image data found in the AI response.")
      end
  end.

(** The request that [editImageWithMask] makes of its arguments. *)
Definition serviceRequest (originalImage maskImage : string * string)
           (prompt : jsstring) : generateRequest :=
  let model := "gemini-2.5-flash-image"%string in
  GenerateRequest model
    (fileToGenerativePart (fst originalImage) (snd originalImage))
    (fileToGenerativePart (fst maskImage) (snd maskImage))
    (finalPrompt prompt).

(** [editImageWithMask]; [generateContent] is the call of the SDK, which
    returns an answer or throws. *)
Definition editImageWithMask
           (generateContent : generateRequest -> outcome answer)
           (typeError : string)
           (originalImage maskImage : string * string) (prompt : jsstring)
  : outcome string :=
  let attempt :=
    match generateContent (serviceRequest originalImage maskImage prompt) with
    | Returned response => readAnswer typeError response
    | Threw t => Threw t
    end in
  match attempt with
  | Returned resultUrl => Returned resultUrl
  | Threw (ErrorWith message) =>
      Threw (ErrorWith ("AI generation failed: " ++ message)%string)
  | Threw NotAnError =>
      Threw (ErrorWith "An unknown error occurred during AI image generation.")
  end.

(** The character that [split] looks for does not occur in [s]. *)
Fixpoint lacks (sep : ascii) (s : string) : bool :=
  match s with
  | EmptyString => true
  | String c rest => negb (Ascii.eqb c sep) && lacks sep rest
  end.

(** ** The application as a whole *)

Section Session.
Context {platform : Platform}.
Local Open Scope string_scope.

(** [reader.readAsDataURL(file)]: the data URL of the bytes of the file; a
    file without a type is given 'application/octet-stream'. *)
Definition readAsDataURL (f : file) : string :=
  "data:"
  ++ (if String.eqb (fileType f) "" then "application/octet-stream" else fileType f)
  ++ ";base64," ++ base64 (fileBytes f).

(** The call of [editImageWithMask] that the [onloadend] callback makes. *)
Definition callService (generateContent : generateRequest -> outcome answer)
           (typeError : string) (call : serviceCall) : outcome string :=
  editImageWithMask generateContent typeError
    (readAsDataURL (callImage call), fileType (callImage call))
    (callMask call, "image/png")
    (callPrompt call).

(** [onFileChange] and [onDrop]: the first of the files, if there is one. *)
Definition onFileChange (files : list file) (st : app) : app :=
  match files with
  | f :: _ => handleImageUpload f st
  | [] => st
  end.

Definition onDrop (files : list file) (st : app) : app :=
  match files with
  | f :: _ => handleImageUpload f st
  | [] => st
  end.

(** What can happen to the application: the events of the controls that
    [renderContent] shows, the events of the editor, and the end of the
    service call. *)
Inductive appEvent : Type :=
| FilesChosen (files : list file)
| FilesDropped (files : list file)
| PromptTyped (text : jsstring)
| OnEditor (ev : editorEvent)
| GenerateClick
| TryAgainClick
| StartOverClick
| ServiceSettled (result : outcome string).

(** The application and the service call that has not ended yet. *)
Record session : Type := Session { ui : app; pending : option serviceCall }.

Definition initialSession : session := Session initialApp None.

(** One event, then the render that follows it.  A control acts only in
    the states in which [renderContent] shows it: the file input and the drop
    zone in [UPLOADING]; the editor, the prompt and "Generate" in [EDITING]
    and [ERROR]; "Try again" in [ERROR]; "Start Over" in
    [DISPLAYING_RESULT].  The callback of the file reader runs when a call is
    pending: it stores the result when [editImageWithMask] returns, and when
    it throws nothing handles the rejection, the [try] around the assignment of
    the callback being long left. *)
Definition sessionStep (ev : appEvent) (w : session) : session :=
  let st := ui w in
  match ev, appState st with
  | FilesChosen files, UPLOADING => Session (render (onFileChange files st)) (pending w)
  | FilesDropped files, UPLOADING => Session (render (onDrop files st)) (pending w)
  | PromptTyped text, (EDITING | ERROR) => Session (render (setPrompt text st)) (pending w)
  | OnEditor ev, (EDITING | ERROR) =>
      match imageEditorRef st with
      | Some ed => Session (render (set_imageEditorRef (Some (editorStep ev ed)) st)) (pending w)
      | None => w
      end
  | GenerateClick, (EDITING | ERROR) =>
      let '(st', call) := handleGenerate st in
      Session (render st') (match call with Some c => Some c | None => pending w end)
  | TryAgainClick, ERROR => Session (render (setAppState EDITING st)) (pending w)
  | StartOverClick, DISPLAYING_RESULT => Session (render (startOver st)) (pending w)
  | ServiceSettled result, _ =>
      match pending w, result with
      | Some _, Returned resultUrl => Session (render (generationDone resultUrl st)) None
      | Some _, Threw _ => Session st None
      | None, _ => w
      end
  | _, _ => w
  end.

Definition sessionRun (evs : list appEvent) (w : session) : session :=
  fold_left (fun w ev => sessionStep ev w) evs w.

(** What holds of the application in each state it can be in.  In [ERROR]
    the editor is there, and its stroke layer has no pixels: the state is
    entered from the [catch] of [handleGenerate] alone. *)
Definition coherent (w : session) : Prop :=
  match appState (ui w) with
  | UPLOADING =>
      originalImage (ui w) = None /\ editedImageUrl (ui w) = None
      /\ prompt (ui w) = [] /\ imageEditorRef (ui w) = None /\ pending w = None
  | EDITING =>
      originalImage (ui w) <> None /\ editedImageUrl (ui w) = None
      /\ imageEditorRef (ui w) <> None /\ pending w = None
  | GENERATING =>
      originalImage (ui w) <> None /\ editedImageUrl (ui w) = None
      /\ imageEditorRef (ui w) = None /\ error (ui w) = None
  | DISPLAYING_RESULT =>
      originalImage (ui w) <> None /\ editedImageUrl (ui w) <> None
      /\ imageEditorRef (ui w) = None /\ pending w = None
  | ERROR =>
      originalImage (ui w) <> None /\ editedImageUrl (ui w) = None
      /\ pending w = None
      /\ exists ed, imageEditorRef (ui w) = Some ed
                    /\ hasPixels (drawingCanvas ed) = false
  end.

(** The files that the event brings decode, if they decode, to an image
    with pixels. *)
Definition uploadsPixels (ev : appEvent) : Prop :=
  match ev with
  | FilesChosen (f :: _) | FilesDropped (f :: _) =>
      forall image, decodeImage (fileBytes f) = Some image ->
                    (0 < bw image)%nat /\ (0 < bh image)%nat
  | _ => True
  end.

(** The editor, when one is rendered, has a stroke layer with pixels. *)
Definition editorHasPixels (w : session) : Prop :=
  forall ed, imageEditorRef (ui w) = Some ed -> hasPixels (drawingCanvas ed) = true.

End Session.

(** ** Soundness of the stroke layer *)

(** The coverages of the rasterizer are fractions on the 8-bit scale. *)
Definition coverageInRange (platform : Platform) : Prop :=
  (forall p x y, 0 <= fillCoverage p x y <= 255)
  /\ (forall p w cap join x y, 0 <= strokeCoverage p w cap join x y <= 255).

(** The decoder gives images that have pixels, as raster images do. *)
Definition decodesPixels (platform : Platform) : Prop :=
  forall bytes image,
    decodeImage bytes = Some image -> (0 < bw image)%nat /\ (0 < bh image)%nat.

(** The base64 text of the platform has no comma in it. *)
Definition base64CommaFree (platform : Platform) : Prop :=
  forall bytes, lacks ","%char (base64 bytes) = true.

(** A stroke layer as the editor keeps it: drawn on with 'source-over', the
    alpha of each pixel on the 8-bit scale. *)
Definition layerSound (c : canvas) : Prop :=
  globalCompositeOperation c = SourceOver
  /\ forall x y, 0 <= pa (getPixel (bits c) x y) <= 255.

(** *** Sample data for the service and the session *)

(** An answer with a text part and two images after it. *)
Definition sampleAnswer : answer :=
  Answer [[AnswerPart (Some "Here is the edit."%string) None;
           AnswerPart None (Some ("QUJD"%string, "image/png"%string));
           AnswerPart None (Some ("WFla"%string, "image/jpeg"%string))];
          [AnswerPart None (Some ("R0hJ"%string, "image/webp"%string))]].

Definition imageService (request : generateRequest) : outcome answer :=
  Returned sampleAnswer.

(** An answer that is text only. *)
Definition textService (request : generateRequest) : outcome answer :=
  Returned (Answer [[AnswerPart (Some "I cannot edit this image."%string) None]]).

(** A session: the sample image is chosen, a stroke is begun, a prompt is
    typed, "Generate" is clicked and the service call fails. *)
Definition sampleHistory : list appEvent :=
  [FilesChosen [sampleImage];
   OnEditor (PointerDown sampleRect sampleTouch);
   PromptTyped [111%N; 107%N];
   GenerateClick;
   ServiceSettled (Threw (ErrorWith "AI generation failed: quota"%string))].

(** The first events of that session, up to the click on "Generate". *)
Definition sampleStart : list appEvent :=
  [FilesChosen [sampleImage];
   OnEditor (PointerDown sampleRect sampleTouch);
   PromptTyped [111%N; 107%N];
   GenerateClick].

(** The session those events lead to, and the call that is pending in it. *)
Definition pendingSession : session :=
  @sessionRun plainPlatform sampleStart initialSession.

Definition pendingCall : serviceCall :=
  ServiceCall sampleImage
    (@toDataURL plainPlatform (fst (renderMask (drawingCanvas stampedEditor))))
    [111%N; 107%N].

(** A platform whose decoder finds an image without size in every file. *)
Definition sizelessPlatform : Platform := {|
  fillCoverage := plainFillCoverage;
  strokeCoverage := plainStrokeCoverage;
  decodeImage := fun _ => Some (blankBitmap 0 0);
  encodePNG := rawEncode;
  base64 := rfc4648;
  createObjectURL := fun f => ("blob:" ++ fileType f)%string;
  emptyCanvasMessage := "The image argument is a canvas element with a width or height of 0."
|}.

(** On it: the sample image chosen and the prompt "ok" typed. *)
Definition sizelessApp : app :=
  ui (@sessionRun sizelessPlatform
        [FilesChosen [sampleImage]; PromptTyped [111%N; 107%N]] initialSession).

(** * Properties *)

(** ** Arithmetic of the 8-bit channels *)

Lemma mul8_0_l (k : Z) : mul8 0 k = 0.
Proof. unfold mul8. rewrite Z.mul_0_l. reflexivity. Qed.

Lemma mul8_0_r (x : Z) : mul8 x 0 = 0.
Proof. unfold mul8. rewrite Z.mul_0_r. reflexivity. Qed.

Lemma mul8_255_r (x : Z) : mul8 x 255 = x.
Proof.
  unfold mul8. rewrite Z.div_add_l by lia.
  change (127 / 255) with 0. lia.
Qed.

Lemma mul8_255_l (k : Z) : mul8 255 k = k.
Proof. unfold mul8. rewrite Z.mul_comm. apply mul8_255_r. Qed.

(** The square of a proper fraction is strictly smaller than the fraction,
    also after rounding. *)
Lemma mul8_square_lt (b : Z) : 0 < b < 255 -> mul8 b b < b.
Proof.
  intros Hb. unfold mul8.
  apply Z.div_lt_upper_bound; [lia | nia].
Qed.

Lemma mul8_nonneg (x y : Z) : 0 <= x -> 0 <= y -> 0 <= mul8 x y.
Proof. intros Hx Hy. unfold mul8. apply Z.div_pos; nia. Qed.

Lemma rangeValue_clamp (requested : Z) :
  rangeValue 5 150 requested = Z.max 5 (Z.min 150 requested).
Proof.
  unfold rangeValue.
  destruct (Z.ltb_spec requested 5); [lia|].
  destruct (Z.ltb_spec 150 requested); lia.
Qed.

(** ** Bitmaps *)

Lemma getPixel_mkBitmap (w h : nat) (f : nat -> nat -> pixel) (x y : nat) :
  (x < w)%nat -> (y < h)%nat -> getPixel (mkBitmap w h f) x y = f x y.
Proof.
  intros Hx Hy. unfold getPixel, mkBitmap. cbn [bw bh bpixels].
  destruct (Nat.ltb_spec x w) as [_|]; [|lia].
  destruct (Nat.ltb_spec y h) as [_|]; [|lia].
  cbn [andb].
  assert (Hi : (y * w + x < w * h)%nat) by nia.
  set (g := fun i => f (i mod w)%nat (i / w)%nat).
  rewrite (nth_indep _ transparentBlack (g 0%nat))
    by (rewrite length_map, length_seq; exact Hi).
  rewrite (map_nth g). subst g. cbv beta.
  rewrite seq_nth by exact Hi. cbn [Nat.add].
  f_equal.
  - rewrite Nat.add_comm, Nat.Div0.mod_add. apply Nat.mod_small; exact Hx.
  - rewrite Nat.add_comm, Nat.div_add by lia.
    rewrite Nat.div_small by exact Hx. reflexivity.
Qed.

Lemma mkBitmap_ext (w h : nat) (f g : nat -> nat -> pixel) :
  (forall x y, (x < w)%nat -> (y < h)%nat -> f x y = g x y) ->
  mkBitmap w h f = mkBitmap w h g.
Proof.
  intros Hfg. unfold mkBitmap. f_equal.
  apply map_ext_in. intros i Hi. apply in_seq in Hi.
  assert (Hw : (0 < w)%nat) by nia.
  apply Hfg.
  - apply Nat.mod_upper_bound. lia.
  - apply Nat.Div0.div_lt_upper_bound. lia.
Qed.

Lemma mkBitmap_const (w h : nat) (p : pixel) :
  mkBitmap w h (fun _ _ => p) = Bitmap w h (repeat p (w * h)).
Proof.
  unfold mkBitmap. f_equal.
  generalize (w * h)%nat, 0%nat.
  induction n as [|n IH]; intros start; cbn [seq map repeat].
  - reflexivity.
  - f_equal. apply IH.
Qed.

Lemma getPixel_blank (w h x y : nat) :
  getPixel (blankBitmap w h) x y = transparentBlack.
Proof.
  unfold getPixel, blankBitmap. cbn [bw bh bpixels].
  destruct ((x <? w) && (y <? h))%nat; [|reflexivity].
  apply nth_repeat.
Qed.

Lemma getPixel_outside (b : bitmap) (x y : nat) :
  ((x <? bw b) && (y <? bh b))%nat = false -> getPixel b x y = transparentBlack.
Proof. intros Hout. unfold getPixel. rewrite Hout. reflexivity. Qed.

Lemma inRect_origin (w h x y : nat) :
  (x < w)%nat -> (y < h)%nat -> inRect 0 0 w h x y = true.
Proof.
  intros Hx Hy. unfold inRect. cbn [Nat.add Nat.leb andb].
  destruct (Nat.ltb_spec x w); [|lia].
  destruct (Nat.ltb_spec y h); [|lia].
  reflexivity.
Qed.

(** ** The export, pixel by pixel *)

Lemma maskPixel_channels (s : pixel) :
  maskPixel s =
  Pixel (pr s) (pg s) (pb s) (pa s + mul8 (255 - pa s) (255 - pa s)).
Proof.
  unfold maskPixel, composite, addPixel, scalePixel, premultiply, black,
    transparentBlack.
  cbn [pr pg pb pa cr cg cb calpha].
  repeat (progress rewrite ?mul8_0_l, ?mul8_0_r, ?Z.add_0_r, ?mul8_255_l).
  reflexivity.
Qed.

Lemma maskPixel_transparent (s : pixel) :
  validPixel s -> pa s = 0 -> maskPixel s = opaqueBlack.
Proof.
  intros (Ha & Hr & Hg & Hb) H0.
  rewrite maskPixel_channels. unfold opaqueBlack.
  rewrite H0 in *. f_equal; lia.
Qed.

Lemma maskPixel_opaque (s : pixel) :
  pa s = 255 -> maskPixel s = Pixel (pr s) (pg s) (pb s) 255.
Proof.
  intros H255. rewrite maskPixel_channels, H255. reflexivity.
Qed.

(** A stroke pixel that is neither clear nor opaque leaves a mask pixel that
    is not opaque. *)
Lemma maskPixel_translucent (s : pixel) :
  0 < pa s < 255 -> pa (maskPixel s) < 255.
Proof.
  intros Ha. rewrite maskPixel_channels. cbn [pa].
  pose proof (mul8_square_lt (255 - pa s)). lia.
Qed.

Lemma mkBitmap_eta (w h : nat) (f : nat -> nat -> pixel) :
  mkBitmap w h f = mkBitmap w h (fun x y => getPixel (mkBitmap w h f) x y).
Proof.
  apply mkBitmap_ext. intros x y Hx Hy.
  symmetry. apply getPixel_mkBitmap; assumption.
Qed.

(** The reductions of the canvas operations that the proofs below step
    through. *)
Ltac canvas_simpl :=
  cbn [bits globalCompositeOperation strokeStyle fillStyle lineWidth lineCap
       lineJoin path cwidth cheight bw bh
       set_bits set_globalCompositeOperation set_strokeStyle set_fillStyle
       set_lineCap set_lineJoin set_path set_width set_height
       resetCanvas createCanvas blankBitmap
       fillRect clearRect drawImage mkBitmap fst snd] in *.

Section ExportLemmas.
Context {platform : Platform}.

Lemma renderMask_pixel (c : canvas) (x y : nat) :
  (x < cwidth c)%nat -> (y < cheight c)%nat ->
  getPixel (bits (fst (renderMask c))) x y = maskPixel (getPixel (bits c) x y).
Proof.
  intros Hx Hy. unfold renderMask. canvas_simpl.
  assert (Hin : inRect 0 0 (bw (bits c)) (bh (bits c)) x y = true)
    by (apply inRect_origin; assumption).
  rewrite getPixel_mkBitmap, Hin by assumption.
  rewrite getPixel_mkBitmap, Hin by assumption.
  rewrite getPixel_mkBitmap by assumption.
  change (inRect 0 0 (cwidth c) (cheight c) x y)
    with (inRect 0 0 (bw (bits c)) (bh (bits c)) x y).
  rewrite Hin, getPixel_blank, !Nat.sub_0_r.
  reflexivity.
Qed.

Lemma renderMask_width (c : canvas) : cwidth (fst (renderMask c)) = cwidth c.
Proof. reflexivity. Qed.

Lemma renderMask_height (c : canvas) : cheight (fst (renderMask c)) = cheight c.
Proof. reflexivity. Qed.

(** The mask is the stroke layer with [maskPixel] applied to each pixel. *)
Lemma renderMask_bits (c : canvas) :
  bits (fst (renderMask c)) =
  mkBitmap (cwidth c) (cheight c) (fun x y => maskPixel (getPixel (bits c) x y)).
Proof.
  transitivity
    (mkBitmap (cwidth c) (cheight c)
              (fun x y => getPixel (bits (fst (renderMask c))) x y)).
  - unfold renderMask. canvas_simpl. apply mkBitmap_eta.
  - apply mkBitmap_ext. intros x y Hx Hy. apply renderMask_pixel; assumption.
Qed.

(** The export puts back the three settings it changes on the drawing
    context, and touches nothing else of the drawing canvas. *)
Lemma renderMask_restores (c : canvas) : snd (renderMask c) = c.
Proof. destruct c. reflexivity. Qed.

Lemma hasPixels_true (c : canvas) :
  (0 < cwidth c)%nat -> (0 < cheight c)%nat -> hasPixels c = true.
Proof.
  intros Hw Hh. unfold hasPixels.
  destruct (Nat.eqb_spec (cwidth c) 0); [lia|].
  destruct (Nat.eqb_spec (cheight c) 0); [lia|].
  reflexivity.
Qed.

Lemma hasPixels_false (c : canvas) :
  hasPixels c = false -> cwidth c = 0%nat \/ cheight c = 0%nat.
Proof.
  unfold hasPixels.
  destruct (Nat.eqb_spec (cwidth c) 0); [left; assumption|].
  destruct (Nat.eqb_spec (cheight c) 0); [right; assumption|].
  discriminate.
Qed.

Lemma getMaskAsBase64_value (s : editor) :
  (0 < cwidth (drawingCanvas s))%nat -> (0 < cheight (drawingCanvas s))%nat ->
  fst (getMaskAsBase64 (Some s))
  = Returned (toDataURL (fst (renderMask (drawingCanvas s)))).
Proof.
  intros Hw Hh. unfold getMaskAsBase64.
  rewrite (hasPixels_true _ Hw Hh).
  destruct (renderMask (drawingCanvas s)). reflexivity.
Qed.

(** Without pixels the export throws what [drawImage] throws. *)
Lemma getMaskAsBase64_throws (s : editor) :
  hasPixels (drawingCanvas s) = false ->
  fst (getMaskAsBase64 (Some s)) = Threw (ErrorWith emptyCanvasMessage).
Proof. intros Hno. unfold getMaskAsBase64. rewrite Hno. reflexivity. Qed.

Lemma getMaskAsBase64_state (r : option editor) : snd (getMaskAsBase64 r) = r.
Proof.
  destruct r as [s|]; [|reflexivity].
  unfold getMaskAsBase64.
  destruct (hasPixels (drawingCanvas s)); [|reflexivity].
  pose proof (renderMask_restores (drawingCanvas s)) as Hr.
  destruct (renderMask (drawingCanvas s)) as [m d]. cbn [snd] in *.
  subst d. destruct s. reflexivity.
Qed.

End ExportLemmas.

(** ** The exported mask *)

Section MaskExport.
Context {platform : Platform}.

(** What does hold of the binary partition: a pixel the brush never
    touched comes out opaque black, and a pixel painted to full opacity in
    white comes out opaque white. *)
Lemma export_untouched_and_saturated (c : canvas) (x y : nat) :
  (x < cwidth c)%nat -> (y < cheight c)%nat ->
  (getPixel (bits c) x y = transparentBlack ->
   getPixel (bits (fst (renderMask c))) x y = opaqueBlack)
  /\ (getPixel (bits c) x y = opaqueWhite ->
      getPixel (bits (fst (renderMask c))) x y = opaqueWhite).
Proof.
  intros Hx Hy. rewrite renderMask_pixel by assumption.
  split; intros ->; reflexivity.
Qed.

(** C1 (the code departs from it).  The mask is claimed to be strictly
    binary: opaque white wherever the stroke layer has a non-zero alpha.
    The code instead leaves every stroke pixel whose alpha lies strictly
    between 0 and 255 (the brush paints with alpha 0.7) as a mask pixel
    that is not opaque, hence not the opaque white of the claim: its alpha
    is [a + (255 - a)^2 / 255], short of 255, and its colour is the
    stroke's own tint. *)
Theorem export_keeps_partial_alpha (c : canvas) (x y : nat) :
  (x < cwidth c)%nat -> (y < cheight c)%nat ->
  0 < pa (getPixel (bits c) x y) < 255 ->
  pa (getPixel (bits (fst (renderMask c))) x y) < 255
  /\ getPixel (bits (fst (renderMask c))) x y <> opaqueWhite.
Proof.
  intros Hx Hy Ha. rewrite renderMask_pixel by assumption.
  pose proof (maskPixel_translucent _ Ha) as Hlt.
  split; [exact Hlt|].
  intros Heq. rewrite Heq in Hlt. cbn [pa opaqueWhite] in Hlt. lia.
Qed.

Lemma clearMask_pixel (s : editor) (x y : nat) :
  getPixel (bits (drawingCanvas (clearMask s))) x y = transparentBlack.
Proof.
  unfold clearMask. cbn [drawingCanvas set_drawingCanvas]. canvas_simpl.
  destruct ((x <? bw (bits (drawingCanvas s)))
            && (y <? bh (bits (drawingCanvas s))))%nat eqn:Hin.
  - apply andb_prop in Hin as [Hx Hy].
    apply Nat.ltb_lt in Hx, Hy.
    rewrite getPixel_mkBitmap by assumption.
    rewrite inRect_origin by assumption. reflexivity.
  - apply getPixel_outside. exact Hin.
Qed.

Lemma clearMask_export_any_state (s : editor) :
  bits (fst (renderMask (drawingCanvas (clearMask s)))) =
  allBlack (cwidth (drawingCanvas s)) (cheight (drawingCanvas s)).
Proof.
  rewrite renderMask_bits. unfold allBlack.
  apply mkBitmap_ext. intros x y _ _.
  rewrite clearMask_pixel. reflexivity.
Qed.

Lemma drawOnCanvas_size (rect : domRect) (e : pointerEvent) (s : editor) :
  cwidth (drawingCanvas (drawOnCanvas rect e s)) = cwidth (drawingCanvas s)
  /\ cheight (drawingCanvas (drawOnCanvas rect e s)) = cheight (drawingCanvas s).
Proof.
  unfold drawOnCanvas.
  destruct (eventPoint (drawingCanvas s) rect e) as [currentX currentY].
  unfold set_lineWidth.
  destruct (Qle_bool (inject_Z (brushSize s)) 0);
    destruct (lastPointRef s) as [[lastX lastY]|]; split; reflexivity.
Qed.

(** No event of the editor changes the size of the stroke layer. *)
Lemma editorStep_size (ev : editorEvent) (s : editor) :
  cwidth (drawingCanvas (editorStep ev s)) = cwidth (drawingCanvas s)
  /\ cheight (drawingCanvas (editorStep ev s)) = cheight (drawingCanvas s).
Proof.
  destruct ev; cbn [editorStep].
  - unfold startDrawing.
    apply (drawOnCanvas_size rect e (set_lastPointRef None (setIsDrawing true s))).
  - unfold handleDrawing. destruct (negb (isDrawing s)).
    + split; reflexivity.
    + apply drawOnCanvas_size.
  - split; reflexivity.
  - split; reflexivity.
  - split; reflexivity.
  - rewrite getMaskAsBase64_state. split; reflexivity.
Qed.

Lemma editorRun_size (evs : list editorEvent) (s : editor) :
  cwidth (drawingCanvas (editorRun evs s)) = cwidth (drawingCanvas s)
  /\ cheight (drawingCanvas (editorRun evs s)) = cheight (drawingCanvas s).
Proof.
  unfold editorRun. revert s.
  induction evs as [|ev evs IH]; intros s; cbn [fold_left].
  - split; reflexivity.
  - destruct (IH (editorStep ev s)) as [Hw Hh].
    destruct (editorStep_size ev s) as [Hw1 Hh1].
    split; congruence.
Qed.

(** C2.  Let a source image with pixels have loaded and let any events have
    followed (strokes, brush changes, clears, exports).  After [clearMask]
    the exported mask has the width and the height of the source image and
    every pixel of it is opaque black; [getMaskAsBase64] does not throw and
    does not return the empty string: it returns the PNG data URL of that
    all-black image. *)
Theorem clearMask_then_export_all_black (image : bitmap) (mounted : editor)
        (history : list editorEvent) :
  (0 < bw image)%nat -> (0 < bh image)%nat ->
  let s := editorRun history (imageLoaded image mounted) in
  let mask := fst (renderMask (drawingCanvas (clearMask s))) in
  bits mask = allBlack (bw image) (bh image)
  /\ fst (getMaskAsBase64 (Some (clearMask s))) =
     Returned ("data:image/png;base64,"
               ++ base64 (encodePNG (allBlack (bw image) (bh image))))%string.
Proof.
  intros Hpw Hph s mask.
  destruct (editorRun_size history (imageLoaded image mounted)) as [Hw Hh].
  fold s in Hw, Hh.
  change (cwidth (drawingCanvas (imageLoaded image mounted))) with (bw image) in Hw.
  change (cheight (drawingCanvas (imageLoaded image mounted))) with (bh image) in Hh.
  assert (Hbits : bits mask = allBlack (bw image) (bh image)).
  { subst mask. rewrite clearMask_export_any_state, Hw, Hh. reflexivity. }
  split; [exact Hbits|].
  assert (Hcw : cwidth (drawingCanvas (clearMask s)) = bw image) by exact Hw.
  assert (Hch : cheight (drawingCanvas (clearMask s)) = bh image) by exact Hh.
  rewrite getMaskAsBase64_value by (rewrite ?Hcw, ?Hch; assumption).
  fold mask. unfold toDataURL, cwidth, cheight. rewrite Hbits.
  cbn [bw bh allBlack mkBitmap].
  destruct (Nat.eqb_spec (bw image) 0); [lia|].
  destruct (Nat.eqb_spec (bh image) 0); [lia|].
  reflexivity.
Qed.

(** C7.  Two calls of [getMaskAsBase64] in a row, the second on the state
    the first leaves, return the same string. *)
Theorem getMaskAsBase64_twice_same (r : option editor) :
  fst (getMaskAsBase64 (snd (getMaskAsBase64 r))) = fst (getMaskAsBase64 r).
Proof. rewrite getMaskAsBase64_state. reflexivity. Qed.

(** C8.  [getMaskAsBase64] leaves the editor as it found it: the pixels of
    the drawing canvas and the settings of its context, among them the
    composite operation, the stroke style and the fill style it sets and
    restores.  Of the events of the editor only those bound to
    [startDrawing], [handleDrawing] and [clearMask] can change the drawing
    canvas. *)
Theorem getMaskAsBase64_reads_only (s : editor) (ev : editorEvent) :
  snd (getMaskAsBase64 (Some s)) = Some s
  /\ (paints ev = false -> drawingCanvas (editorStep ev s) = drawingCanvas s).
Proof.
  split; [apply getMaskAsBase64_state|].
  destruct ev; cbn [paints]; intros Hp; try discriminate Hp.
  - reflexivity.
  - reflexivity.
  - cbn [editorStep]. rewrite getMaskAsBase64_state. reflexivity.
Qed.

End MaskExport.

(** ** Strokes *)

Section Strokes.
Context {platform : Platform}.

Lemma drawOnCanvas_without_last (rect : domRect) (e : pointerEvent) (s : editor) :
  lastPointRef s = None ->
  let c := drawingCanvas s in
  let pt := eventPoint c rect e in
  bits (drawingCanvas (drawOnCanvas rect e s)) = stamped c pt (brushSize s).
Proof.
  intros Hlast c pt. subst c pt. unfold drawOnCanvas, stamped.
  destruct (eventPoint (drawingCanvas s) rect e) as [currentX currentY].
  rewrite Hlast. unfold set_lineWidth.
  destruct (Qle_bool (inject_Z (brushSize s)) 0); reflexivity.
Qed.

(** While a stroke goes on, the segment from the last point is painted
    first and the stamp over it. *)
Lemma drawOnCanvas_with_last (rect : domRect) (e : pointerEvent) (s : editor)
      (last : point) :
  lastPointRef s = Some last ->
  let c := drawingCanvas s in
  let pt := eventPoint c rect e in
  bits (drawingCanvas (drawOnCanvas rect e s)) =
  stamped (set_bits (bridged c last pt (brushSize s)) c) pt (brushSize s).
Proof.
  intros Hlast c pt. subst c pt. unfold drawOnCanvas, stamped, bridged.
  destruct (eventPoint (drawingCanvas s) rect e) as [currentX currentY].
  rewrite Hlast. destruct last as [lastX lastY]. unfold set_lineWidth.
  destruct (Qle_bool (inject_Z (brushSize s)) 0); reflexivity.
Qed.

(** C3.  [startDrawing] forgets the last point before it stamps: whatever
    point an earlier stroke left in [lastPointRef], the stroke layer after
    [startDrawing] is the layer before it with the one brush circle at the
    new point painted on it and no segment; the current path holds that
    circle alone, the new point becomes the last point, and the outcome
    does not depend on the point that was left. *)
Theorem startDrawing_never_bridges (rect : domRect) (e : pointerEvent)
        (s : editor) (stale : option point) :
  let c := drawingCanvas s in
  let pt := eventPoint c rect e in
  let after := startDrawing rect e (set_lastPointRef stale s) in
  bits (drawingCanvas after) = stamped c pt (brushSize s)
  /\ path (drawingCanvas after) =
     [Circle (fst pt) (snd pt) (inject_Z (brushSize s) / 2)%Q]
  /\ lastPointRef after = Some pt
  /\ after = startDrawing rect e s.
Proof.
  intros c pt after. subst c pt after.
  unfold startDrawing, drawOnCanvas, stamped.
  cbn [drawingCanvas lastPointRef brushSize setIsDrawing set_lastPointRef].
  destruct (eventPoint (drawingCanvas s) rect e) as [currentX currentY].
  unfold set_lineWidth.
  destruct (Qle_bool (inject_Z (brushSize s)) 0);
    repeat split; reflexivity.
Qed.

Lemma eventPoint_times_display (c : canvas) (rect : domRect) (e : pointerEvent) :
  (0 < rectWidth rect)%Q -> (0 < rectHeight rect)%Q ->
  (fst (eventPoint c rect e) * rectWidth rect
   == fst (displayPoint rect e) * inject_Z (Z.of_nat (cwidth c)))%Q
  /\ (snd (eventPoint c rect e) * rectHeight rect
      == snd (displayPoint rect e) * inject_Z (Z.of_nat (cheight c)))%Q.
Proof.
  intros Hw Hh.
  assert (Hw0 : ~ (rectWidth rect == 0)%Q)
    by (intros H0; rewrite H0 in Hw; discriminate Hw).
  assert (Hh0 : ~ (rectHeight rect == 0)%Q)
    by (intros H0; rewrite H0 in Hh; discriminate Hh).
  split; destruct e; cbn [eventPoint displayPoint fst snd]; field; assumption.
Qed.

(** A product that is the same with two factors is so because the factors
    are equal or the other factor is 0. *)
Lemma Qmult_cancel_or_zero (d a b : Q) :
  (d * a == d * b)%Q -> (d == 0)%Q \/ (a == b)%Q.
Proof.
  intros Hab.
  assert (H0 : (d * (a - b) == 0)%Q).
  { transitivity (d * a - d * b)%Q; [ring|]. rewrite Hab. ring. }
  destruct (Qmult_integral _ _ H0) as [Hd | Hd]; [left; exact Hd | right].
  transitivity (a - b + b)%Q; [ring|]. rewrite Hd. ring.
Qed.

(** C4.  Every pointer event that [drawOnCanvas] takes in, a mouse event as
    a touch event, is painted at the display point scaled by the size of the
    bitmap over the size of the display (a display of positive size, where
    the quotient is a number).  The point [pt] that the function computes
    is dx * Wb / Wd, dy * Hb / Hd: its product with the display size is the
    display point times the bitmap size, so it is not the raw display point
    where the two sizes differ.  At that point the pixels are painted: the
    stroke layer after the call is the layer before it (with the segment to
    [pt] stroked first, when a stroke is going on) and the brush circle
    centred at [pt] filled on it; the current path is that circle and [pt]
    is the last point, from which the next segment starts.  [startDrawing]
    and [handleDrawing] draw through [drawOnCanvas] alone. *)
Theorem drawOnCanvas_scales_the_point (rect : domRect) (e : pointerEvent)
        (s : editor) :
  (0 < rectWidth rect)%Q -> (0 < rectHeight rect)%Q ->
  let c := drawingCanvas s in
  let d := displayPoint rect e in
  let pt := eventPoint c rect e in
  let after := drawOnCanvas rect e s in
  let base :=
    match lastPointRef s with
    | Some last => set_bits (bridged c last pt (brushSize s)) c
    | None => c
    end in
  (fst pt == fst d * inject_Z (Z.of_nat (cwidth c)) / rectWidth rect)%Q
  /\ (snd pt == snd d * inject_Z (Z.of_nat (cheight c)) / rectHeight rect)%Q
  /\ path (drawingCanvas after) =
     [Circle (fst pt) (snd pt) (inject_Z (brushSize s) / 2)%Q]
  /\ lastPointRef after = Some pt
  /\ path (drawingCanvas (startDrawing rect e s)) = path (drawingCanvas after)
  /\ (isDrawing s = true -> handleDrawing rect e s = after)
  /\ bits (drawingCanvas after) = stamped base pt (brushSize s)
  /\ bits (drawingCanvas (startDrawing rect e s)) = stamped c pt (brushSize s)
  /\ (fst pt * rectWidth rect == fst d * inject_Z (Z.of_nat (cwidth c)))%Q
  /\ (snd pt * rectHeight rect == snd d * inject_Z (Z.of_nat (cheight c)))%Q
  /\ (~ (inject_Z (Z.of_nat (cwidth c)) == rectWidth rect)%Q ->
      ~ (fst d == 0)%Q -> ~ (fst pt == fst d)%Q)
  /\ (~ (inject_Z (Z.of_nat (cheight c)) == rectHeight rect)%Q ->
      ~ (snd d == 0)%Q -> ~ (snd pt == snd d)%Q).
Proof.
  intros Hrw Hrh c d pt after base.
  destruct (eventPoint_times_display c rect e Hrw Hrh) as [Hcx Hcy].
  fold pt in Hcx, Hcy. fold d in Hcx, Hcy.
  subst c d pt after base.
  repeat match goal with |- _ /\ _ => split end.
  - destruct e; cbn [eventPoint displayPoint fst]; unfold Qdiv; ring.
  - destruct e; cbn [eventPoint displayPoint snd]; unfold Qdiv; ring.
  - unfold drawOnCanvas.
    destruct (eventPoint (drawingCanvas s) rect e) as [currentX currentY].
    unfold set_lineWidth.
    destruct (Qle_bool (inject_Z (brushSize s)) 0);
      destruct (lastPointRef s) as [[lastX lastY]|]; reflexivity.
  - unfold drawOnCanvas.
    destruct (eventPoint (drawingCanvas s) rect e) as [currentX currentY].
    reflexivity.
  - unfold startDrawing, drawOnCanvas.
    cbn [drawingCanvas lastPointRef brushSize setIsDrawing set_lastPointRef].
    destruct (eventPoint (drawingCanvas s) rect e) as [currentX currentY].
    unfold set_lineWidth.
    destruct (Qle_bool (inject_Z (brushSize s)) 0);
      destruct (lastPointRef s) as [[lastX lastY]|]; reflexivity.
  - intros Hd. unfold handleDrawing. rewrite Hd. reflexivity.
  - destruct (lastPointRef s) as [last|] eqn:Hlast.
    + apply (drawOnCanvas_with_last rect e s last Hlast).
    + apply (drawOnCanvas_without_last rect e s Hlast).
  - unfold startDrawing.
    apply (drawOnCanvas_without_last rect e
             (set_lastPointRef None (setIsDrawing true s))).
    reflexivity.
  - exact Hcx.
  - exact Hcy.
  - intros Hsize Hd Hraw. rewrite Hraw in Hcx.
    destruct (Qmult_cancel_or_zero _ _ _ Hcx) as [H0 | Heq];
      [exact (Hd H0) | apply Hsize; symmetry; exact Heq].
  - intros Hsize Hd Hraw. rewrite Hraw in Hcy.
    destruct (Qmult_cancel_or_zero _ _ _ Hcy) as [H0 | Heq];
      [exact (Hd H0) | apply Hsize; symmetry; exact Heq].
Qed.

(** C5.  The brush starts at 40, and whatever value is asked of the slider
    the brush size stored is that value brought into the range from 5 to
    150: 5 for a smaller value, 150 for a larger one. *)
Theorem brush_size_clamped (requested : Z) (s : editor) :
  brushSize initialEditor = 40
  /\ brushSize (onBrushSizeChange requested s) = Z.max 5 (Z.min 150 requested).
Proof.
  split; [reflexivity|].
  unfold onBrushSizeChange. cbn [brushSize setBrushSize].
  apply rangeValue_clamp.
Qed.

Lemma editorStep_brushInRange (ev : editorEvent) (s : editor) :
  brushInRange s -> brushInRange (editorStep ev s).
Proof.
  unfold brushInRange. intros Hs. destruct ev; cbn [editorStep].
  - unfold startDrawing, drawOnCanvas.
    cbn [drawingCanvas lastPointRef brushSize setIsDrawing set_lastPointRef].
    destruct (eventPoint _ _ _). exact Hs.
  - unfold handleDrawing, drawOnCanvas.
    destruct (negb (isDrawing s)); [exact Hs|].
    destruct (eventPoint _ _ _). exact Hs.
  - exact Hs.
  - unfold onBrushSizeChange. cbn [brushSize setBrushSize].
    rewrite rangeValue_clamp. lia.
  - exact Hs.
  - rewrite getMaskAsBase64_state. exact Hs.
Qed.

(** The brush size stays in the range of the slider along every run that
    starts in it; the editor is mounted with a size in the range. *)
Lemma editorRun_brushInRange (evs : list editorEvent) (s : editor) :
  brushInRange s -> brushInRange (editorRun evs s).
Proof.
  unfold editorRun. revert s.
  induction evs as [|ev evs IH]; intros s Hs; cbn [fold_left].
  - exact Hs.
  - apply IH. apply editorStep_brushInRange. exact Hs.
Qed.

Lemma initialEditor_brushInRange : brushInRange initialEditor.
Proof. unfold brushInRange, initialEditor. cbn [brushSize]. lia. Qed.

End Strokes.

(** ** The application *)

Lemma trimStart_blank (s : jsstring) :
  forallb isWhiteSpace s = true -> trimStart s = [].
Proof.
  induction s as [|c rest IH]; cbn [forallb trimStart]; intros Hs.
  - reflexivity.
  - apply andb_prop in Hs as [Hc Hrest]. rewrite Hc. apply IH. exact Hrest.
Qed.

Lemma trim_blank (s : jsstring) :
  forallb isWhiteSpace s = true -> trim s = [].
Proof.
  intros Hs. unfold trim. rewrite (trimStart_blank s Hs). reflexivity.
Qed.

Lemma prefix_append (p t : string) : String.prefix p (p ++ t) = true.
Proof.
  induction p as [|a p IH]; simpl.
  - destruct t; reflexivity.
  - destruct (ascii_dec a a) as [_|Hne]; [exact IH | contradiction Hne; reflexivity].
Qed.

Lemma includes_prefix (p t : string) : includes (p ++ t) p = true.
Proof.
  destruct (p ++ t)%string eqn:Hs; cbn [includes];
    rewrite <- Hs, prefix_append; reflexivity.
Qed.

Section ApplicationProperties.
Context {platform : Platform}.
Local Open Scope string_scope.

(** The check that [handleGenerate] makes on the mask never fires for an
    editor whose canvas has pixels: every mask it exports carries the
    prefix that the check looks for. *)
Lemma mask_check_passes (ed : editor) :
  (0 < cwidth (drawingCanvas ed))%nat -> (0 < cheight (drawingCanvas ed))%nat ->
  includes (toDataURL (fst (renderMask (drawingCanvas ed))))
           "data:image/png;base64," = true.
Proof.
  intros Hw Hh. unfold toDataURL.
  rewrite renderMask_width, renderMask_height.
  destruct (Nat.eqb_spec (cwidth (drawingCanvas ed)) 0); [lia|].
  destruct (Nat.eqb_spec (cheight (drawingCanvas ed)) 0); [lia|].
  cbn [orb]. apply includes_prefix.
Qed.

(** C6 (the code departs from it).  The orchestrator is claimed to notice
    an empty mask and not to call the service.  With a prompt typed, an
    image loaded and not one pixel painted, [handleGenerate] goes on to the
    service call, and the mask it sends is the all-black image: the state
    is left at [GENERATING] with no error. *)
Theorem handleGenerate_sends_empty_mask (st : app) (original : uploaded)
        (ed : editor) :
  truthy (trim (prompt st)) = true ->
  originalImage st = Some original ->
  imageEditorRef st = Some ed ->
  (0 < cwidth (drawingCanvas ed))%nat ->
  (0 < cheight (drawingCanvas ed))%nat ->
  bits (drawingCanvas ed) =
    blankBitmap (cwidth (drawingCanvas ed)) (cheight (drawingCanvas ed)) ->
  handleGenerate st =
  (set_imageEditorRef (Some ed) (setError None (setAppState GENERATING st)),
   Some (ServiceCall (upFile original)
           ("data:image/png;base64,"
            ++ base64 (encodePNG (allBlack (cwidth (drawingCanvas ed))
                                           (cheight (drawingCanvas ed)))))
           (prompt st))).
Proof.
  intros Hprompt Himg Hed Hw Hh Hblank.
  unfold handleGenerate. rewrite Hprompt, Himg, Hed. cbn [negb].
  pose proof (mask_check_passes ed Hw Hh) as Hcheck.
  pose proof (getMaskAsBase64_state (Some ed)) as Hstate.
  pose proof (getMaskAsBase64_value ed Hw Hh) as Hvalue.
  destruct (getMaskAsBase64 (Some ed)) as [result ed'].
  cbn [fst snd] in *. subst ed' result. rewrite Hcheck. cbn [negb].
  f_equal. f_equal. f_equal.
  unfold toDataURL.
  rewrite renderMask_width, renderMask_height.
  destruct (Nat.eqb_spec (cwidth (drawingCanvas ed)) 0); [lia|].
  destruct (Nat.eqb_spec (cheight (drawingCanvas ed)) 0); [lia|].
  cbn [orb]. do 3 f_equal.
  rewrite renderMask_bits. unfold allBlack.
  apply mkBitmap_ext. intros x y _ _.
  rewrite Hblank, getPixel_blank. reflexivity.
Qed.

(** C9 (as amended).  [handleImageUpload] turns a file down exactly when
    the MIME type it comes with does not start with 'image/'; the bytes are
    not looked at.  A file turned down gets the error message at once and
    changes nothing else of the state.  A file taken is stored, the state
    becomes [EDITING] and no error is set, whether its bytes decode or
    not; when they do not, the editor keeps the canvases it has, as
    [onload] never runs. *)
Theorem handleImageUpload_checks_the_type (f : file) (st : app) (ed : editor) :
  (startsWith (fileType f) "image/" = false ->
   handleImageUpload f st =
   setError (Some "Please upload a valid image file (PNG, JPG, etc.).") st)
  /\ (startsWith (fileType f) "image/" = true ->
      handleImageUpload f st =
      setError None
        (setAppState EDITING
           (setOriginalImage (Some (Uploaded f (createObjectURL f))) st)))
  /\ (decodeImage (fileBytes f) = None -> loadImage f ed = ed).
Proof.
  unfold handleImageUpload, loadImage. repeat split.
  - intros ->. reflexivity.
  - intros ->. reflexivity.
  - intros ->. reflexivity.
Qed.

(** C10.  When the prompt is empty or holds white space only,
    [handleGenerate] sets the message that asks for a description and
    returns: no service call is made, and the application state and every
    other part of the state stay as they are. *)
Theorem handleGenerate_blank_prompt (st : app) :
  forallb isWhiteSpace (prompt st) = true ->
  handleGenerate st =
  (setError (Some "Please enter a description of the edit you want to make.") st,
   None)
  /\ appState (fst (handleGenerate st)) = appState st.
Proof.
  intros Hblank. unfold handleGenerate.
  rewrite (trim_blank _ Hblank). cbn [truthy negb].
  split; reflexivity.
Qed.

End ApplicationProperties.

(** ** The statements at work on the sample data *)

(** One tap of the default brush covers the sample image; the stroke layer
    then holds the brush tint at alpha 179, and the exported mask holds
    that tint at alpha 202: neither black nor white, and not opaque. *)
Lemma export_keeps_partial_alpha_witness :
  getPixel (bits (drawingCanvas stampedEditor)) 0 0 = Pixel 179 179 179 179
  /\ getPixel (bits (fst (renderMask (drawingCanvas stampedEditor)))) 0 0
     = Pixel 179 179 179 202
  /\ pa (getPixel (bits (fst (renderMask (drawingCanvas stampedEditor)))) 0 0) < 255
  /\ getPixel (bits (fst (renderMask (drawingCanvas stampedEditor)))) 0 0
     <> opaqueWhite.
Proof.
  split; [vm_compute; reflexivity|].
  split; [vm_compute; reflexivity|].
  apply (export_keeps_partial_alpha (drawingCanvas stampedEditor) 0 0).
  - vm_compute. lia.
  - vm_compute. lia.
  - vm_compute. split; reflexivity.
Defined.

(** A touch at the client position (60, 70) on a canvas displayed at (10, 20)
    is the display point (50, 50); on the bitmap of 2 by 1 pixels shown at
    100 by 100 it lands at (50 * 2 / 100, 50 * 1 / 100). *)
Lemma drawOnCanvas_scales_the_point_witness :
  (fst (eventPoint (drawingCanvas sampleEditor) sampleRect sampleTouch)
   == (60 - 10) * inject_Z (Z.of_nat (cwidth (drawingCanvas sampleEditor))) / 100)%Q
  /\ (snd (eventPoint (drawingCanvas sampleEditor) sampleRect sampleTouch)
      == (70 - 20) * inject_Z (Z.of_nat (cheight (drawingCanvas sampleEditor))) / 100)%Q
  /\ bits (drawingCanvas (@drawOnCanvas plainPlatform sampleRect sampleTouch sampleEditor))
     = @stamped plainPlatform (drawingCanvas sampleEditor)
         (eventPoint (drawingCanvas sampleEditor) sampleRect sampleTouch) 40
  /\ getPixel (@stamped plainPlatform (drawingCanvas sampleEditor)
                 (eventPoint (drawingCanvas sampleEditor) sampleRect sampleTouch) 40)
              1 0
     = Pixel 179 179 179 179
  /\ ~ (fst (eventPoint (drawingCanvas sampleEditor) sampleRect sampleTouch)
        == 60 - 10)%Q.
Proof.
  assert (Hw : (0 < rectWidth sampleRect)%Q) by reflexivity.
  assert (Hh : (0 < rectHeight sampleRect)%Q) by reflexivity.
  pose proof (@drawOnCanvas_scales_the_point plainPlatform sampleRect sampleTouch
                sampleEditor Hw Hh)
    as (Hx & Hy & _ & _ & _ & _ & Hbits & _ & _ & _ & Hraw & _).
  split; [exact Hx|]. split; [exact Hy|]. split; [exact Hbits|].
  split; [vm_compute; reflexivity|].
  apply Hraw.
  - vm_compute. discriminate.
  - vm_compute. discriminate.
Defined.

(** The sample application, nothing painted, calls the service with the
    all-black mask of 2 by 1 pixels. *)
Lemma handleGenerate_sends_empty_mask_witness :
  snd (@handleGenerate plainPlatform sampleApp) =
  Some (ServiceCall sampleImage
          ("data:image/png;base64," ++ rfc4648 (rawEncode (allBlack 2 1)))
          [111%N; 107%N])
  /\ error (fst (@handleGenerate plainPlatform sampleApp)) = None
  /\ appState (fst (@handleGenerate plainPlatform sampleApp)) = GENERATING.
Proof.
  rewrite (@handleGenerate_sends_empty_mask plainPlatform sampleApp
             (Uploaded sampleImage "blob:image/png") sampleEditor).
  - repeat split; reflexivity.
  - reflexivity.
  - reflexivity.
  - reflexivity.
  - vm_compute. lia.
  - vm_compute. lia.
  - vm_compute. reflexivity.
Defined.

(** Releasing the pointer and asking for the mask leave the stamped layer as
    it is. *)
Lemma getMaskAsBase64_reads_only_witness :
  snd (@getMaskAsBase64 plainPlatform (Some stampedEditor)) = Some stampedEditor
  /\ drawingCanvas (@editorStep plainPlatform MaskRequest stampedEditor)
     = drawingCanvas stampedEditor
  /\ drawingCanvas (@editorStep plainPlatform PointerUp stampedEditor)
     = drawingCanvas stampedEditor.
Proof.
  split; [|split].
  - exact (proj1 (@getMaskAsBase64_reads_only plainPlatform stampedEditor MaskRequest)).
  - apply (proj2 (@getMaskAsBase64_reads_only plainPlatform stampedEditor MaskRequest)).
    reflexivity.
  - apply (proj2 (@getMaskAsBase64_reads_only plainPlatform stampedEditor PointerUp)).
    reflexivity.
Defined.

(** C9, the counterexample.  The file [brokenPng] has bytes that do not
    decode, and the upload neither fails nor leaves the state alone: no
    error is set, the state moves to [EDITING] and the file is stored.  The
    file [untypedImage] decodes, and it is turned down with an error. *)
Lemma upload_ignores_decodability :
  @decodeImage plainPlatform (fileBytes brokenPng) = None
  /\ error (@handleImageUpload plainPlatform brokenPng initialApp) = None
  /\ appState (@handleImageUpload plainPlatform brokenPng initialApp) = EDITING
  /\ originalImage (@handleImageUpload plainPlatform brokenPng initialApp)
     = Some (Uploaded brokenPng "blob:image/png")
  /\ @decodeImage plainPlatform (fileBytes untypedImage) <> None
  /\ error (@handleImageUpload plainPlatform untypedImage initialApp)
     = Some "Please upload a valid image file (PNG, JPG, etc.)."%string.
Proof.
  repeat split; try reflexivity.
  vm_compute. discriminate.
Qed.

Lemma handleImageUpload_checks_the_type_witness :
  @handleImageUpload plainPlatform untypedImage initialApp
  = setError (Some "Please upload a valid image file (PNG, JPG, etc.)."%string)
             initialApp
  /\ @handleImageUpload plainPlatform brokenPng initialApp
     = setError None
         (setAppState EDITING
            (setOriginalImage (Some (Uploaded brokenPng "blob:image/png"%string))
                              initialApp))
  /\ @loadImage plainPlatform brokenPng initialEditor = initialEditor.
Proof.
  split; [|split].
  - apply (proj1 (@handleImageUpload_checks_the_type plainPlatform untypedImage
                    initialApp initialEditor)).
    reflexivity.
  - apply (proj1 (proj2 (@handleImageUpload_checks_the_type plainPlatform brokenPng
                           initialApp initialEditor))).
    reflexivity.
  - apply (proj2 (proj2 (@handleImageUpload_checks_the_type plainPlatform brokenPng
                           initialApp initialEditor))).
    reflexivity.
Defined.

Lemma handleGenerate_blank_prompt_witness :
  @handleGenerate plainPlatform blankPromptApp =
  (setError (Some "Please enter a description of the edit you want to make."%string)
            blankPromptApp,
   None)
  /\ appState (fst (@handleGenerate plainPlatform blankPromptApp)) = EDITING.
Proof.
  apply (@handleGenerate_blank_prompt plainPlatform blankPromptApp).
  reflexivity.
Defined.

(** * Further properties of the editor *)

Section EditorProperties.
Context {platform : Platform}.

Lemma handleDrawing_idle (rect : domRect) (e : pointerEvent) (s : editor) :
  isDrawing s = false -> handleDrawing rect e s = s.
Proof. intros Hidle. unfold handleDrawing. rewrite Hidle. reflexivity. Qed.

(** Once the pointer is up (or has left the canvas) the stroke is over: the
    moves that follow, however many, draw nothing and change nothing, and a
    second release changes nothing either. *)
Theorem moves_after_release_draw_nothing (moves : list (domRect * pointerEvent))
        (s : editor) :
  editorRun (PointerUp :: map (fun m => PointerMove (fst m) (snd m)) moves) s
  = stopDrawing s
  /\ stopDrawing (stopDrawing s) = stopDrawing s.
Proof.
  split; [|reflexivity].
  unfold editorRun. cbn [fold_left editorStep].
  assert (Hidle : isDrawing (stopDrawing s) = false) by reflexivity.
  generalize dependent (stopDrawing s). clear s.
  induction moves as [|[rect e] moves IH]; intros s Hidle; cbn [map fold_left].
  - reflexivity.
  - cbn [editorStep fst snd]. rewrite (handleDrawing_idle rect e s Hidle).
    apply IH. exact Hidle.
Qed.

Lemma startDrawing_state (rect : domRect) (e : pointerEvent) (s : editor) :
  isDrawing (startDrawing rect e s) = true
  /\ lastPointRef (startDrawing rect e s)
     = Some (eventPoint (drawingCanvas s) rect e)
  /\ brushSize (startDrawing rect e s) = brushSize s.
Proof.
  unfold startDrawing, drawOnCanvas.
  cbn [drawingCanvas lastPointRef brushSize setIsDrawing set_lastPointRef].
  destruct (eventPoint (drawingCanvas s) rect e) as [currentX currentY].
  repeat split; reflexivity.
Qed.

(** A stroke that goes on: after the pointer went down at one point, a move
    to a second point strokes the segment between the two points, with round
    caps and the width of the brush, and then stamps the circle of the brush
    at the second point; that point becomes the last point. *)
Theorem move_joins_the_last_point (rect1 rect2 : domRect) (e1 e2 : pointerEvent)
        (s : editor) :
  let s1 := startDrawing rect1 e1 s in
  let c1 := drawingCanvas s1 in
  let p1 := eventPoint (drawingCanvas s) rect1 e1 in
  let p2 := eventPoint c1 rect2 e2 in
  let s2 := handleDrawing rect2 e2 s1 in
  bits (drawingCanvas s2)
  = stamped (set_bits (bridged c1 p1 p2 (brushSize s)) c1) p2 (brushSize s)
  /\ lastPointRef s2 = Some p2
  /\ isDrawing s2 = true.
Proof.
  intros s1 c1 p1 p2 s2.
  destruct (startDrawing_state rect1 e1 s) as (Hd & Hl & Hb).
  fold s1 in Hd, Hl, Hb. fold p1 in Hl.
  assert (Hs2 : s2 = drawOnCanvas rect2 e2 s1).
  { subst s2. unfold handleDrawing. rewrite Hd. reflexivity. }
  rewrite Hs2. split; [|split].
  - rewrite (drawOnCanvas_with_last rect2 e2 s1 p1 Hl). rewrite Hb. reflexivity.
  - unfold drawOnCanvas. fold c1. fold p2. destruct p2. reflexivity.
  - unfold drawOnCanvas. fold c1. destruct (eventPoint c1 rect2 e2).
    cbn [isDrawing set_lastPointRef set_drawingCanvas]. exact Hd.
Qed.

(** The stroke layer keeps the size of the image that was loaded, through
    every sequence of events. *)
Theorem stroke_layer_keeps_image_size (image : bitmap) (mounted : editor)
        (history : list editorEvent) :
  let s := editorRun history (imageLoaded image mounted) in
  cwidth (drawingCanvas s) = bw image /\ cheight (drawingCanvas s) = bh image.
Proof.
  intros s. exact (editorRun_size history (imageLoaded image mounted)).
Qed.

Lemma loadImage_brushSize (f : file) (s : editor) :
  brushSize (loadImage f s) = brushSize s.
Proof.
  unfold loadImage. destruct (decodeImage (fileBytes f)); reflexivity.
Qed.

(** From the mounting of the editor on, whether the image loads or not,
    the brush size is between 5 and 150 after every sequence of events. *)
Theorem brush_stays_in_range (f : file) (history : list editorEvent) :
  5 <= brushSize (editorRun history (loadImage f initialEditor)) <= 150.
Proof.
  apply editorRun_brushInRange.
  unfold brushInRange. rewrite loadImage_brushSize.
  apply initialEditor_brushInRange.
Qed.

Lemma composite_over_clear (p : pixel) :
  composite SourceOver p transparentBlack = p.
Proof.
  destruct p as [r g b a].
  unfold composite, addPixel, scalePixel, transparentBlack. cbn [pr pg pb pa].
  rewrite !mul8_0_l, !Z.add_0_r. reflexivity.
Qed.

(** When the image has loaded, the stroke layer is a new canvas of the size
    of the image (whatever was drawn is gone, and the context is as new), the
    image canvas shows the image pixel for pixel, and the brush and the
    stroke in progress are as before. *)
Theorem imageLoaded_resets_the_layers (image : bitmap) (s : editor) (x y : nat) :
  (x < bw image)%nat -> (y < bh image)%nat ->
  drawingCanvas (imageLoaded image s) = resetCanvas (bw image) (bh image)
  /\ cwidth (imageCanvas (imageLoaded image s)) = bw image
  /\ cheight (imageCanvas (imageLoaded image s)) = bh image
  /\ getPixel (bits (imageCanvas (imageLoaded image s))) x y = getPixel image x y
  /\ imageRef (imageLoaded image s) = Some image
  /\ brushSize (imageLoaded image s) = brushSize s
  /\ lastPointRef (imageLoaded image s) = lastPointRef s
  /\ isDrawing (imageLoaded image s) = isDrawing s.
Proof.
  intros Hx Hy. repeat split.
  unfold imageLoaded.
  cbn [imageCanvas drawingCanvas set_imageCanvas set_drawingCanvas set_imageRef].
  canvas_simpl.
  rewrite getPixel_mkBitmap by assumption.
  rewrite inRect_origin by assumption.
  rewrite getPixel_blank, !Nat.sub_0_r.
  apply composite_over_clear.
Qed.

(** [clearMask] changes the pixels of the stroke layer and nothing else: the
    layer becomes the blank bitmap of its size, its context settings, the
    stroke in progress and the brush stay, and clearing twice is clearing
    once. *)
Theorem clearMask_blanks_only_the_pixels (s : editor) :
  clearMask s
  = set_drawingCanvas
      (set_bits (blankBitmap (cwidth (drawingCanvas s)) (cheight (drawingCanvas s)))
                (drawingCanvas s))
      s
  /\ clearMask (clearMask s) = clearMask s.
Proof.
  assert (Hone : forall t, clearMask t
    = set_drawingCanvas
        (set_bits (blankBitmap (cwidth (drawingCanvas t)) (cheight (drawingCanvas t)))
                  (drawingCanvas t)) t).
  { intros t. unfold clearMask, clearRect. do 2 f_equal.
    unfold blankBitmap. rewrite <- mkBitmap_const.
    apply mkBitmap_ext. intros x y Hx Hy.
    rewrite inRect_origin by assumption. reflexivity. }
  split; [apply Hone|].
  rewrite (Hone (clearMask s)). rewrite (Hone s). reflexivity.
Qed.

End EditorProperties.

(** ** Strokes only add coverage *)

Lemma mul8_le_l (x k : Z) : 0 <= x -> 0 <= k <= 255 -> mul8 x k <= x.
Proof.
  intros Hx Hk. unfold mul8.
  apply Z.lt_succ_r. apply Z.div_lt_upper_bound; [lia | nia].
Qed.

(** The alpha of 'source-over': never below the alpha underneath, never
    above the scale. *)
Lemma over_alpha_bounds (sa da : Z) :
  0 <= sa <= 255 -> 0 <= da <= 255 ->
  da <= sa + mul8 da (255 - sa) <= 255.
Proof.
  intros Hs Hd. unfold mul8. split.
  - assert (da - sa <= (da * (255 - sa) + 127) / 255); [|lia].
    apply Z.div_le_lower_bound; [lia | nia].
  - assert ((da * (255 - sa) + 127) / 255 < 255 - sa + 1); [|lia].
    apply Z.div_lt_upper_bound; [lia | nia].
Qed.

Lemma paintPixel_alpha {platform : Platform} (k : color) (coverage : Z) (dst : pixel) :
  0 <= calpha k <= 255 -> 0 <= coverage <= 255 -> 0 <= pa dst <= 255 ->
  pa dst <= pa (paintPixel SourceOver k coverage dst) <= 255.
Proof.
  intros Hk Hc Hd.
  unfold paintPixel, composite, addPixel, scalePixel, premultiply.
  cbn [pr pg pb pa].
  apply over_alpha_bounds; [|exact Hd].
  split; [apply mul8_nonneg; lia|].
  pose proof (mul8_le_l (calpha k) coverage). lia.
Qed.

Section Coverage.
Context {platform : Platform}.
Hypothesis Hcoverage : coverageInRange platform.

Lemma painted_bitmap_alpha (c : canvas) (k : color) (coverage : nat -> nat -> Z) :
  0 <= calpha k <= 255 ->
  (forall x y, 0 <= coverage x y <= 255) ->
  (forall x y, 0 <= pa (getPixel (bits c) x y) <= 255) ->
  forall x y,
    pa (getPixel (bits c) x y)
    <= pa (getPixel (mkBitmap (cwidth c) (cheight c) (fun px py =>
             paintPixel SourceOver k (coverage px py) (getPixel (bits c) px py)))
           x y)
    <= 255.
Proof.
  intros Hk Hc Hd x y.
  destruct ((x <? cwidth c) && (y <? cheight c))%nat eqn:Hin.
  - apply andb_prop in Hin as [Hx Hy]. apply Nat.ltb_lt in Hx, Hy.
    rewrite getPixel_mkBitmap by assumption.
    apply paintPixel_alpha; auto.
  - rewrite (getPixel_outside (mkBitmap _ _ _)) by exact Hin.
    rewrite (getPixel_outside (bits c)) by exact Hin.
    cbn [pa transparentBlack]. lia.
Qed.

Lemma fill_sound (c : canvas) :
  0 <= calpha (fillStyle c) <= 255 -> layerSound c ->
  layerSound (fill c)
  /\ forall x y, pa (getPixel (bits c) x y) <= pa (getPixel (bits (fill c)) x y).
Proof.
  intros Hk [Hop Hd]. destruct Hcoverage as [Hfill _].
  pose proof (painted_bitmap_alpha c (fillStyle c) (fillCoverage (path c))
                Hk (Hfill (path c)) Hd) as Hp.
  unfold fill. rewrite Hop. split; [split|].
  - cbn [globalCompositeOperation set_bits]. exact Hop.
  - intros x y. specialize (Hp x y). specialize (Hd x y).
    cbn [bits set_bits]. lia.
  - intros x y. cbn [bits set_bits]. apply Hp.
Qed.

Lemma stroke_sound (c : canvas) :
  0 <= calpha (strokeStyle c) <= 255 -> layerSound c ->
  layerSound (stroke c)
  /\ forall x y, pa (getPixel (bits c) x y) <= pa (getPixel (bits (stroke c)) x y).
Proof.
  intros Hk [Hop Hd]. destruct Hcoverage as [_ Hstroke].
  pose proof (painted_bitmap_alpha c (strokeStyle c)
                (strokeCoverage (path c) (lineWidth c) (lineCap c) (lineJoin c))
                Hk (Hstroke (path c) (lineWidth c) (lineCap c) (lineJoin c)) Hd) as Hp.
  unfold stroke. rewrite Hop. split; [split|].
  - cbn [globalCompositeOperation set_bits]. exact Hop.
  - intros x y. specialize (Hp x y). specialize (Hd x y).
    cbn [bits set_bits]. lia.
  - intros x y. cbn [bits set_bits]. apply Hp.
Qed.

(** Settings that leave the pixels and the composite operation alone keep a
    layer sound. *)
Lemma layerSound_same_bits (c c' : canvas) :
  bits c' = bits c -> globalCompositeOperation c' = globalCompositeOperation c ->
  layerSound c -> layerSound c'.
Proof.
  intros Hb Hop [Hso Hd]. split; [congruence|].
  intros x y. rewrite Hb. apply Hd.
Qed.

Lemma drawOnCanvas_sound (rect : domRect) (e : pointerEvent) (s : editor) :
  layerSound (drawingCanvas s) ->
  layerSound (drawingCanvas (drawOnCanvas rect e s))
  /\ forall x y,
       pa (getPixel (bits (drawingCanvas s)) x y)
       <= pa (getPixel (bits (drawingCanvas (drawOnCanvas rect e s))) x y).
Proof.
  intros Hs. unfold drawOnCanvas.
  destruct (eventPoint (drawingCanvas s) rect e) as [currentX currentY].
  cbn [drawingCanvas set_lastPointRef set_drawingCanvas].
  set (styled := set_lineJoin JoinRound
                   (set_lineCap CapRound
                      (set_lineWidth (inject_Z (brushSize s))
                         (set_fillStyle brushTint
                            (set_strokeStyle brushTint (drawingCanvas s)))))).
  assert (Hbits : bits styled = bits (drawingCanvas s)
                  /\ globalCompositeOperation styled
                     = globalCompositeOperation (drawingCanvas s)
                  /\ strokeStyle styled = brushTint
                  /\ fillStyle styled = brushTint).
  { subst styled. unfold set_lineWidth.
    destruct (Qle_bool (inject_Z (brushSize s)) 0); repeat split; reflexivity. }
  destruct Hbits as (Hb & Hop & Hss & Hfs).
  pose proof (layerSound_same_bits _ styled Hb Hop Hs) as Hstyled.
  assert (Htint : 0 <= calpha brushTint <= 255) by (cbn; lia).
  destruct (lastPointRef s) as [[lastX lastY]|].
  - set (segment := lineTo currentX currentY (moveTo lastX lastY (beginPath styled))).
    assert (Hseg : layerSound segment)
      by (apply (layerSound_same_bits styled); [reflexivity | reflexivity | exact Hstyled]).
    assert (Hsegk : 0 <= calpha (strokeStyle segment) <= 255)
      by (change (strokeStyle segment) with (strokeStyle styled); rewrite Hss; exact Htint).
    destruct (stroke_sound segment Hsegk Hseg) as [Hstroked Hmono1].
    set (circle := arc currentX currentY (inject_Z (brushSize s) / 2)%Q
                       (beginPath (stroke segment))).
    assert (Hcirc : layerSound circle)
      by (apply (layerSound_same_bits (stroke segment));
          [reflexivity | reflexivity | exact Hstroked]).
    assert (Hcirck : 0 <= calpha (fillStyle circle) <= 255)
      by (change (fillStyle circle) with (fillStyle styled); rewrite Hfs; exact Htint).
    destruct (fill_sound circle Hcirck Hcirc) as [Hfilled Hmono2].
    split; [exact Hfilled|].
    intros x y.
    specialize (Hmono1 x y). specialize (Hmono2 x y).
    change (bits segment) with (bits styled) in Hmono1. rewrite Hb in Hmono1.
    change (bits circle) with (bits (stroke segment)) in Hmono2.
    lia.
  - set (circle := arc currentX currentY (inject_Z (brushSize s) / 2)%Q
                       (beginPath styled)).
    assert (Hcirc : layerSound circle)
      by (apply (layerSound_same_bits styled); [reflexivity | reflexivity | exact Hstyled]).
    assert (Hcirck : 0 <= calpha (fillStyle circle) <= 255)
      by (change (fillStyle circle) with (fillStyle styled); rewrite Hfs; exact Htint).
    destruct (fill_sound circle Hcirck Hcirc) as [Hfilled Hmono2].
    split; [exact Hfilled|].
    intros x y. specialize (Hmono2 x y).
    change (bits circle) with (bits styled) in Hmono2. rewrite Hb in Hmono2.
    exact Hmono2.
Qed.

Lemma editorStep_sound (ev : editorEvent) (s : editor) :
  ev <> ClearClick ->
  layerSound (drawingCanvas s) ->
  layerSound (drawingCanvas (editorStep ev s))
  /\ forall x y,
       pa (getPixel (bits (drawingCanvas s)) x y)
       <= pa (getPixel (bits (drawingCanvas (editorStep ev s))) x y).
Proof.
  intros Hev Hs. destruct ev; cbn [editorStep].
  - unfold startDrawing.
    apply (drawOnCanvas_sound rect e (set_lastPointRef None (setIsDrawing true s))).
    exact Hs.
  - unfold handleDrawing. destruct (negb (isDrawing s)).
    + split; [exact Hs | intros; apply Z.le_refl].
    + apply drawOnCanvas_sound. exact Hs.
  - split; [exact Hs | intros; apply Z.le_refl].
  - split; [exact Hs | intros; apply Z.le_refl].
  - contradiction Hev. reflexivity.
  - rewrite getMaskAsBase64_state. split; [exact Hs | intros; apply Z.le_refl].
Qed.

(** As long as "Clear Mask" is not clicked, nothing that happens to the
    editor takes coverage away: after any sequence of strokes, releases,
    brush changes and exports, the alpha of every pixel of the stroke layer is
    at least what it was, and at most 255. *)
Theorem strokes_only_add_coverage (history : list editorEvent) (s : editor)
        (x y : nat) :
  Forall (fun ev => ev <> ClearClick) history ->
  layerSound (drawingCanvas s) ->
  pa (getPixel (bits (drawingCanvas s)) x y)
  <= pa (getPixel (bits (drawingCanvas (editorRun history s))) x y)
  <= 255.
Proof.
  intros Hhist. revert s.
  unfold editorRun.
  induction Hhist as [|ev evs Hev _ IH]; intros s Hs; cbn [fold_left].
  - destruct Hs as [_ Hd]. specialize (Hd x y). lia.
  - destruct (editorStep_sound ev s Hev Hs) as [Hs' Hmono].
    specialize (IH (editorStep ev s) Hs'). specialize (Hmono x y). lia.
Qed.

End Coverage.

(** * Further properties of the application *)

Lemma forallb_rev {A : Type} (f : A -> bool) (l : list A) :
  forallb f (rev l) = forallb f l.
Proof.
  induction l as [|a l IH]; cbn [rev forallb].
  - reflexivity.
  - rewrite forallb_app, IH. cbn [forallb]. rewrite andb_true_r. apply andb_comm.
Qed.

Lemma trimStart_keeps_text (s : jsstring) :
  forallb isWhiteSpace s = false -> forallb isWhiteSpace (trimStart s) = false.
Proof.
  induction s as [|c rest IH]; cbn [forallb trimStart]; intros Hs.
  - discriminate Hs.
  - destruct (isWhiteSpace c) eqn:Hc.
    + apply IH. exact Hs.
    + cbn [forallb]. rewrite Hc. reflexivity.
Qed.

(** [trim] leaves nothing exactly of the strings that are white space
    throughout. *)
Lemma trim_truthy (s : jsstring) :
  truthy (trim s) = negb (forallb isWhiteSpace s).
Proof.
  destruct (forallb isWhiteSpace s) eqn:Hs.
  - rewrite (trim_blank s Hs). reflexivity.
  - cbn [negb]. unfold trim, trimEnd.
    pose proof (trimStart_keeps_text s Hs) as H1.
    rewrite <- forallb_rev in H1.
    pose proof (trimStart_keeps_text _ H1) as H2.
    rewrite <- forallb_rev in H2.
    destruct (rev (trimStart (rev (trimStart s)))); [discriminate H2 | reflexivity].
Qed.

Section ApplicationFlow.
Context {platform : Platform}.
Local Open Scope string_scope.

(** The message that asks for a description is the answer of
    [handleGenerate] to the blank prompts and to no others: a prompt with one
    character that is not white space gets past the first check. *)
Theorem prompt_message_iff_blank (st : app) :
  error (fst (handleGenerate st))
  = Some "Please enter a description of the edit you want to make."
  <-> forallb isWhiteSpace (prompt st) = true
      \/ error st = Some "Please enter a description of the edit you want to make."
         /\ (originalImage st = None \/ imageEditorRef st = None).
Proof.
  unfold handleGenerate. rewrite trim_truthy, negb_involutive.
  destruct (forallb isWhiteSpace (prompt st)) eqn:Hblank.
  - cbn [fst error setError]. split; [left; reflexivity | reflexivity].
  - destruct (originalImage st) as [original|], (imageEditorRef st) as [ed|];
      cbn [fst].
    + destruct (getMaskAsBase64 (Some ed)) as [[maskDataUrl|err] ed'].
      * destruct (negb (includes maskDataUrl "data:image/png;base64,"));
          cbn [fst error setError setAppState set_imageEditorRef];
          (split; [intros H; discriminate H |]);
          intros [H | [_ [H | H]]]; discriminate H.
      * cbn [fst error setError setAppState set_imageEditorRef].
        split; [intros H; simpl in H; discriminate H |].
        intros [H | [_ [H | H]]]; discriminate H.
    + split; [intros H; right; split; [exact H | right; reflexivity] |].
      intros [H | [H _]]; [discriminate H | exact H].
    + split; [intros H; right; split; [exact H | left; reflexivity] |].
      intros [H | [H _]]; [discriminate H | exact H].
    + split; [intros H; right; split; [exact H | left; reflexivity] |].
      intros [H | [H _]]; [discriminate H | exact H].
Qed.

(** What [handleGenerate] changes, in its two parts.  Up to the hand-over
    to the file reader, on every path (the early returns, the mask check, the
    [catch]) it leaves the image, the result, the prompt and the editor as
    they are: it changes the application state and the error message at
    most.  Its [onloadend] callback, run on whatever state the application
    is in when the service has returned, stores the result and moves to
    [DISPLAYING_RESULT], and leaves the image, the prompt, the error message
    and the editor as they are. *)
Theorem handleGenerate_keeps_the_inputs (st later : app) (resultUrl : string) :
  (originalImage (fst (handleGenerate st)) = originalImage st
   /\ editedImageUrl (fst (handleGenerate st)) = editedImageUrl st
   /\ prompt (fst (handleGenerate st)) = prompt st
   /\ imageEditorRef (fst (handleGenerate st)) = imageEditorRef st)
  /\ (originalImage (generationDone resultUrl later) = originalImage later
      /\ prompt (generationDone resultUrl later) = prompt later
      /\ error (generationDone resultUrl later) = error later
      /\ imageEditorRef (generationDone resultUrl later) = imageEditorRef later
      /\ editedImageUrl (generationDone resultUrl later) = Some resultUrl
      /\ appState (generationDone resultUrl later) = DISPLAYING_RESULT).
Proof.
  split; [|repeat split].
  unfold handleGenerate.
  destruct (negb (truthy (trim (prompt st)))); [repeat split|].
  destruct (originalImage st) as [original|] eqn:Ho,
           (imageEditorRef st) as [ed|] eqn:He;
    try (cbn [fst]; repeat split; assumption).
  pose proof (getMaskAsBase64_state (Some ed)) as Hstate.
  destruct (getMaskAsBase64 (Some ed)) as [[maskDataUrl|err] ed'];
    cbn [snd] in Hstate; subst ed'.
  - destruct (negb (includes maskDataUrl "data:image/png;base64,"));
      cbn [fst originalImage editedImageUrl prompt imageEditorRef
           setError setAppState set_imageEditorRef];
      repeat split; assumption.
  - cbn [fst originalImage editedImageUrl prompt imageEditorRef
         setError setAppState set_imageEditorRef].
    repeat split; assumption.
Qed.

(** With an editor whose stroke layer has pixels, [handleGenerate] makes the
    service call exactly when the prompt is not blank, an image is there and
    the editor is mounted; the call then carries the uploaded file, the mask
    as [getMaskAsBase64] returns it and the prompt as typed (not trimmed),
    and the application is left in [GENERATING] without an error. *)
Theorem handleGenerate_calls_the_service_iff (st : app) :
  (forall ed, imageEditorRef st = Some ed ->
              (0 < cwidth (drawingCanvas ed))%nat /\ (0 < cheight (drawingCanvas ed))%nat) ->
  (snd (handleGenerate st) <> None
   <-> forallb isWhiteSpace (prompt st) = false
       /\ originalImage st <> None /\ imageEditorRef st <> None)
  /\ forall call, snd (handleGenerate st) = Some call ->
       appState (fst (handleGenerate st)) = GENERATING
       /\ error (fst (handleGenerate st)) = None
       /\ exists original ed,
            originalImage st = Some original /\ imageEditorRef st = Some ed
            /\ fst (getMaskAsBase64 (Some ed)) = Returned (callMask call)
            /\ call = ServiceCall (upFile original)
                                  (toDataURL (fst (renderMask (drawingCanvas ed))))
                                  (prompt st).
Proof.
  intros Hsize. unfold handleGenerate. rewrite trim_truthy, negb_involutive.
  destruct (forallb isWhiteSpace (prompt st)) eqn:Hblank.
  { cbn [snd]. split.
    - split; [intros H; contradiction H; reflexivity|].
      intros (H & _). discriminate H.
    - intros call H. discriminate H. }
  destruct (originalImage st) as [original|] eqn:Ho,
           (imageEditorRef st) as [ed|] eqn:He;
    try (cbn [snd]; split;
         [ split; [intros H; contradiction H; reflexivity
                  | intros (_ & H1 & H2); try (contradiction H1; reflexivity);
                    contradiction H2; reflexivity]
         | intros call H; discriminate H ]).
  destruct (Hsize ed eq_refl) as [Hw Hh].
  pose proof (mask_check_passes ed Hw Hh) as Hcheck.
  pose proof (getMaskAsBase64_value ed Hw Hh) as Hvalue.
  destruct (getMaskAsBase64 (Some ed)) as [result ed'].
  cbn [fst] in Hvalue. subst result.
  rewrite Hcheck. cbn [negb snd fst]. split.
  - split; [intros _; repeat split; discriminate | intros _; discriminate].
  - intros call Hcall. injection Hcall as <-.
    split; [reflexivity|]. split; [reflexivity|].
    exists original, ed. repeat split.
    exact (getMaskAsBase64_value ed Hw Hh).
Qed.

(** "Start Over" and the render after it bring the application back to the
    state it started in, whatever state it was in. *)
Theorem startOver_returns_to_the_start (st : app) :
  render (startOver st) = initialApp.
Proof. reflexivity. Qed.

(** An upload that is taken, from a state without an editor: after the
    render the editor is there with the default brush and no stroke going on;
    when the bytes decode, its two canvases have the size of the image and
    the stroke layer is blank; when they do not, the canvases stay at the
    300 by 150 pixels of a new canvas. *)
Theorem upload_mounts_the_editor (f : file) (st : app) :
  startsWith (fileType f) "image/" = true ->
  imageEditorRef st = None ->
  let st' := render (handleImageUpload f st) in
  imageEditorRef st' = Some (loadImage f initialEditor)
  /\ appState st' = EDITING
  /\ error st' = None
  /\ (forall image, decodeImage (fileBytes f) = Some image ->
        drawingCanvas (loadImage f initialEditor) = resetCanvas (bw image) (bh image)
        /\ cwidth (imageCanvas (loadImage f initialEditor)) = bw image
        /\ cheight (imageCanvas (loadImage f initialEditor)) = bh image)
  /\ (decodeImage (fileBytes f) = None ->
        drawingCanvas (loadImage f initialEditor) = resetCanvas 300 150)
  /\ brushSize (loadImage f initialEditor) = 40
  /\ isDrawing (loadImage f initialEditor) = false.
Proof.
  intros Htype Hed st'. subst st'.
  unfold handleImageUpload. rewrite Htype.
  unfold render.
  cbn [appState originalImage imageEditorRef setError setAppState setOriginalImage
       set_imageEditorRef upFile].
  rewrite Hed. cbn [imageEditorRef set_imageEditorRef].
  unfold loadImage.
  destruct (decodeImage (fileBytes f)) as [image|].
  - repeat split; try discriminate;
      match goal with Hsome : Some _ = Some _ |- _ => injection Hsome as <- end;
      reflexivity.
  - repeat split; discriminate.
Qed.

End ApplicationFlow.

(** ** The application from event to event *)

Section SessionProperties.
Context {platform : Platform}.
Local Open Scope string_scope.

Lemma handleGenerate_with_editor (st : app) (original : uploaded) (ed : editor) :
  originalImage st = Some original ->
  imageEditorRef st = Some ed ->
  hasPixels (drawingCanvas ed) = true ->
  handleGenerate st =
  if forallb isWhiteSpace (prompt st)
  then (setError (Some "Please enter a description of the edit you want to make.") st,
        None)
  else (set_imageEditorRef (Some ed) (setError None (setAppState GENERATING st)),
        Some (ServiceCall (upFile original)
                          (toDataURL (fst (renderMask (drawingCanvas ed))))
                          (prompt st))).
Proof.
  intros Ho He Hpix. unfold handleGenerate.
  rewrite trim_truthy, negb_involutive.
  destruct (forallb isWhiteSpace (prompt st)); [reflexivity|].
  rewrite Ho, He.
  assert (Hw : (0 < cwidth (drawingCanvas ed))%nat
               /\ (0 < cheight (drawingCanvas ed))%nat).
  { unfold hasPixels in Hpix.
    destruct (Nat.eqb_spec (cwidth (drawingCanvas ed)) 0); [discriminate Hpix|].
    destruct (Nat.eqb_spec (cheight (drawingCanvas ed)) 0); [discriminate Hpix|].
    split; lia. }
  destruct Hw as [Hw Hh].
  pose proof (mask_check_passes ed Hw Hh) as Hcheck.
  pose proof (getMaskAsBase64_state (Some ed)) as Hstate.
  pose proof (getMaskAsBase64_value ed Hw Hh) as Hvalue.
  destruct (getMaskAsBase64 (Some ed)) as [result ed'].
  cbn [fst snd] in *. subst ed' result. rewrite Hcheck. reflexivity.
Qed.

Lemma handleGenerate_without_pixels (st : app) (original : uploaded) (ed : editor) :
  originalImage st = Some original ->
  imageEditorRef st = Some ed ->
  hasPixels (drawingCanvas ed) = false ->
  handleGenerate st =
  if forallb isWhiteSpace (prompt st)
  then (setError (Some "Please enter a description of the edit you want to make.") st,
        None)
  else (setAppState ERROR
          (setError (Some ("Generation failed: " ++ emptyCanvasMessage))
             (set_imageEditorRef (Some ed)
                (setError None (setAppState GENERATING st)))),
        None).
Proof.
  intros Ho He Hpix. unfold handleGenerate.
  rewrite trim_truthy, negb_involutive.
  destruct (forallb isWhiteSpace (prompt st)); [reflexivity|].
  rewrite Ho, He. unfold getMaskAsBase64. rewrite Hpix. reflexivity.
Qed.

Lemma editorStep_hasPixels (ev : editorEvent) (ed : editor) :
  hasPixels (drawingCanvas (editorStep ev ed)) = hasPixels (drawingCanvas ed).
Proof.
  destruct (editorStep_size ev ed) as [Hw Hh].
  unfold hasPixels. rewrite Hw, Hh. reflexivity.
Qed.

Lemma loadImage_initial_pixels (f : file) :
  (forall image, decodeImage (fileBytes f) = Some image ->
                 (0 < bw image)%nat /\ (0 < bh image)%nat) ->
  hasPixels (drawingCanvas (loadImage f initialEditor)) = true.
Proof.
  intros Hdec. unfold loadImage.
  destruct (decodeImage (fileBytes f)) as [image|] eqn:Himage.
  - destruct (Hdec image eq_refl) as [Hw Hh].
    apply hasPixels_true.
    + change (cwidth (drawingCanvas (imageLoaded image initialEditor))) with (bw image).
      exact Hw.
    + change (cheight (drawingCanvas (imageLoaded image initialEditor))) with (bh image).
      exact Hh.
  - reflexivity.
Qed.

Lemma upload_invariant (f : file) (er : option string) :
  let w := Session (render (handleImageUpload f (App UPLOADING None None [] er None)))
                   None in
  coherent w
  /\ ((forall image, decodeImage (fileBytes f) = Some image ->
                     (0 < bw image)%nat /\ (0 < bh image)%nat) ->
      editorHasPixels w).
Proof.
  intros w. subst w. unfold handleImageUpload.
  destruct (startsWith (fileType f) "image/"); unfold coherent, editorHasPixels, render;
    cbn [ui pending appState originalImage editedImageUrl prompt error imageEditorRef
         setError setAppState setOriginalImage set_imageEditorRef upFile].
  - split.
    + repeat split; discriminate.
    + intros Hdec ed Hed. injection Hed as <-.
      apply loadImage_initial_pixels. exact Hdec.
  - split.
    + repeat split.
    + intros _ ed Hed. discriminate Hed.
Qed.

Lemma sessionStep_invariant (ev : appEvent) (w : session) :
  coherent w ->
  coherent (sessionStep ev w)
  /\ (uploadsPixels ev -> editorHasPixels w -> editorHasPixels (sessionStep ev w)).
Proof.
  intros Hw.
  destruct w as [[a o u p er r] pend].
  destruct a; unfold coherent in Hw;
    cbn [ui pending appState originalImage editedImageUrl prompt error imageEditorRef]
      in Hw.
  - (* UPLOADING *)
    destruct Hw as (-> & -> & -> & -> & ->).
    assert (Hsame : coherent (Session (App UPLOADING None None [] er None) None))
      by (unfold coherent; cbn; repeat split).
    destruct ev; try (split; [exact Hsame | intros _ Hpix; exact Hpix]);
      unfold sessionStep; cbn [ui pending appState].
    + destruct files as [|f files]; cbn [onFileChange uploadsPixels].
      * split; [exact Hsame | intros _ Hpix; exact Hpix].
      * destruct (upload_invariant f er) as [Hc Hp].
        split; [exact Hc | intros Hdec _; apply Hp; exact Hdec].
    + destruct files as [|f files]; cbn [onDrop uploadsPixels].
      * split; [exact Hsame | intros _ Hpix; exact Hpix].
      * destruct (upload_invariant f er) as [Hc Hp].
        split; [exact Hc | intros Hdec _; apply Hp; exact Hdec].
  - (* EDITING *)
    destruct Hw as (Ho & -> & Hr & ->).
    destruct o as [original|]; [|contradiction Ho; reflexivity].
    destruct r as [ed|]; [|contradiction Hr; reflexivity].
    assert (Hsame : coherent (Session (App EDITING (Some original) None p er (Some ed)) None))
      by (unfold coherent; cbn; repeat split; discriminate).
    destruct ev; try (split; [exact Hsame | intros _ Hpix; exact Hpix]);
      unfold sessionStep; cbn [ui pending appState imageEditorRef].
    + split; [unfold coherent; cbn; repeat split; discriminate|].
      intros _ Hpix ed' Hed'. cbn in Hed'. injection Hed' as <-.
      rewrite editorStep_hasPixels. apply (Hpix ed). reflexivity.
    + destruct (hasPixels (drawingCanvas ed)) eqn:Hedpix.
      * rewrite (handleGenerate_with_editor
                   (App EDITING (Some original) None p er (Some ed))
                   original ed eq_refl eq_refl Hedpix).
        cbn [prompt]. destruct (forallb isWhiteSpace p).
        -- split; [exact Hsame|].
           intros _ Hpix ed' Hed'. cbn in Hed'. injection Hed' as <-. exact Hedpix.
        -- split; [unfold coherent; cbn; repeat split; discriminate|].
           intros _ _ ed' Hed'. cbn in Hed'. discriminate Hed'.
      * rewrite (handleGenerate_without_pixels
                   (App EDITING (Some original) None p er (Some ed))
                   original ed eq_refl eq_refl Hedpix).
        cbn [prompt]. destruct (forallb isWhiteSpace p).
        -- split; [exact Hsame|].
           intros _ Hpix. specialize (Hpix ed eq_refl). congruence.
        -- split.
           ++ unfold coherent. cbn. repeat split; try discriminate.
              exists ed. split; [reflexivity | exact Hedpix].
           ++ intros _ Hpix. specialize (Hpix ed eq_refl). congruence.
  - (* GENERATING *)
    destruct Hw as (Ho & -> & -> & ->).
    destruct o as [original|]; [|contradiction Ho; reflexivity].
    assert (Hsame : forall q,
      coherent (Session (App GENERATING (Some original) None p None None) q))
      by (intros q; unfold coherent; cbn; repeat split; discriminate).
    destruct ev; try (split; [apply Hsame | intros _ Hpix; exact Hpix]);
      unfold sessionStep; cbn [ui pending appState].
    destruct pend as [call|];
      [|split; [apply Hsame | intros _ Hpix; exact Hpix]].
    destruct result as [resultUrl|t].
    + split; [unfold coherent; cbn; repeat split; discriminate|].
      intros _ _ ed' Hed'. cbn in Hed'. discriminate Hed'.
    + split; [apply Hsame|].
      intros _ _ ed' Hed'. cbn in Hed'. discriminate Hed'.
  - (* DISPLAYING_RESULT *)
    destruct Hw as (Ho & Hu & -> & ->).
    assert (Hsame : coherent (Session (App DISPLAYING_RESULT o u p er None) None))
      by (unfold coherent; cbn; repeat split; assumption).
    destruct ev; try (split; [exact Hsame | intros _ Hpix; exact Hpix]);
      unfold sessionStep; cbn [ui pending appState].
    split; [unfold coherent; cbn; repeat split|].
    intros _ _ ed' Hed'. cbn in Hed'. discriminate Hed'.
  - (* ERROR *)
    destruct Hw as (Ho & -> & -> & (ed & Hr & Hedpix)).
    cbn [imageEditorRef] in Hr. subst r.
    destruct o as [original|]; [|contradiction Ho; reflexivity].
    assert (Hhere : forall q e' ed',
      hasPixels (drawingCanvas ed') = false ->
      coherent (Session (App ERROR (Some original) None q e' (Some ed')) None)).
    { intros q e' ed' Hno. unfold coherent. cbn. repeat split; try discriminate.
      exists ed'. split; [reflexivity | exact Hno]. }
    assert (Hnever : forall v : session,
      editorHasPixels (Session (App ERROR (Some original) None p er (Some ed)) None) ->
      editorHasPixels v).
    { intros v Hpix. specialize (Hpix ed eq_refl). congruence. }
    destruct ev; try (split; [apply Hhere; exact Hedpix | intros _; apply Hnever]);
      unfold sessionStep; cbn [ui pending appState imageEditorRef].
    + split; [|intros _; apply Hnever].
      apply Hhere. rewrite editorStep_hasPixels. exact Hedpix.
    + rewrite (handleGenerate_without_pixels
                 (App ERROR (Some original) None p er (Some ed))
                 original ed eq_refl eq_refl Hedpix).
      cbn [prompt]. destruct (forallb isWhiteSpace p);
        (split; [apply Hhere; exact Hedpix | intros _; apply Hnever]).
    + split; [|intros _; apply Hnever].
      unfold coherent. cbn. repeat split; discriminate.
Qed.

(** Whatever the user does and however the service answers, the application
    stays in one of five shapes: uploading with nothing stored; editing with
    an image, an editor and no call pending; generating with the editor gone
    and no error shown; showing a result with both images; or in [ERROR]
    with an editor whose stroke layer has no pixels.  So [ERROR] is entered
    only through the [catch] of [handleGenerate], when the export throws on a
    stroke layer with a side of 0, and it is never entered as long as every
    uploaded file that decodes gives an image with pixels. *)
Theorem session_stays_coherent (history : list appEvent) :
  coherent (sessionRun history initialSession)
  /\ (Forall uploadsPixels history ->
      appState (ui (sessionRun history initialSession)) <> ERROR).
Proof.
  assert (Hrun : forall w, coherent w ->
            coherent (sessionRun history w)
            /\ (Forall uploadsPixels history -> editorHasPixels w ->
                editorHasPixels (sessionRun history w))).
  { unfold sessionRun. induction history as [|ev evs IH]; intros w Hw; cbn [fold_left].
    - split; [exact Hw | intros _ Hpix; exact Hpix].
    - destruct (sessionStep_invariant ev w Hw) as [Hc Hp].
      destruct (IH (sessionStep ev w) Hc) as [Hc' Hp'].
      split; [exact Hc'|].
      intros Hall Hpix. inversion Hall as [|ev' evs' Hev Hevs]; subst.
      apply Hp'; [exact Hevs|]. apply Hp; assumption. }
  assert (Hinit : coherent initialSession) by (unfold coherent; cbn; repeat split).
  destruct (Hrun initialSession Hinit) as [Hc Hp].
  split; [exact Hc|].
  intros Hall Herr.
  assert (Hpix0 : editorHasPixels initialSession)
    by (intros ed Hed; discriminate Hed).
  specialize (Hp Hall Hpix0).
  unfold coherent in Hc. rewrite Herr in Hc.
  destruct Hc as (_ & _ & _ & (ed & Hed & Hno)).
  specialize (Hp ed Hed). congruence.
Qed.

(** The [catch] of [handleGenerate]: with a prompt that is not blank, an
    image and an editor whose stroke layer has a side of 0, the export
    throws, no service call is made, and the application is left in [ERROR]
    with the message 'Generation failed: ' followed by the message of the
    exception; the image, the prompt and the editor are as they were. *)
Theorem handleGenerate_catches_the_export (st : app) (original : uploaded)
        (ed : editor) :
  forallb isWhiteSpace (prompt st) = false ->
  originalImage st = Some original ->
  imageEditorRef st = Some ed ->
  cwidth (drawingCanvas ed) = 0%nat \/ cheight (drawingCanvas ed) = 0%nat ->
  fst (getMaskAsBase64 (Some ed)) = Threw (ErrorWith emptyCanvasMessage)
  /\ snd (handleGenerate st) = None
  /\ appState (fst (handleGenerate st)) = ERROR
  /\ error (fst (handleGenerate st))
     = Some ("Generation failed: " ++ emptyCanvasMessage)
  /\ imageEditorRef (fst (handleGenerate st)) = Some ed
  /\ originalImage (fst (handleGenerate st)) = Some original
  /\ prompt (fst (handleGenerate st)) = prompt st.
Proof.
  intros Hblank Ho He Hside.
  assert (Hno : hasPixels (drawingCanvas ed) = false).
  { unfold hasPixels. destruct Hside as [-> | ->].
    - reflexivity.
    - destruct (cwidth (drawingCanvas ed) =? 0)%nat; reflexivity. }
  rewrite (handleGenerate_without_pixels st original ed Ho He Hno), Hblank.
  split; [apply getMaskAsBase64_throws; exact Hno|].
  cbn [fst snd appState error imageEditorRef originalImage prompt
       setAppState setError set_imageEditorRef].
  repeat split. exact Ho.
Qed.

Lemma generating_is_idle (ev : appEvent) (st : app) :
  appState st = GENERATING -> sessionStep ev (Session st None) = Session st None.
Proof.
  intros Hst. unfold sessionStep. cbn [ui pending]. rewrite Hst.
  destruct ev; try reflexivity.
Qed.

(** A service call that fails: while the application is generating with a
    call pending, let [editImageWithMask] throw for that call.  Nothing
    handles the rejection (the [try] of [handleGenerate] was left long before
    the callback runs): the application keeps the state it had, no error is
    shown, and no event that can follow changes it. *)
Theorem failed_call_leaves_the_spinner (w : session) (call : serviceCall)
        (generateContent : generateRequest -> outcome answer) (typeError : string)
        (t : thrown) (later : list appEvent) :
  appState (ui w) = GENERATING ->
  pending w = Some call ->
  callService generateContent typeError call = Threw t ->
  sessionRun (ServiceSettled (callService generateContent typeError call) :: later) w
  = Session (ui w) None.
Proof.
  intros Hst Hcall Hthrows. rewrite Hthrows.
  unfold sessionRun. cbn [fold_left].
  assert (Hfirst : sessionStep (ServiceSettled (Threw t)) w = Session (ui w) None).
  { destruct w as [st pend]. cbn [pending ui] in *. subst pend.
    unfold sessionStep. cbn [ui pending]. reflexivity. }
  rewrite Hfirst. clear Hfirst.
  induction later as [|ev evs IH]; cbn [fold_left].
  - reflexivity.
  - rewrite (generating_is_idle ev (ui w) Hst). exact IH.
Qed.

End SessionProperties.

(** * The inpainting service *)

Lemma split_lacks (sep : ascii) (s : string) :
  lacks sep s = true -> split sep s = [s].
Proof.
  induction s as [|c rest IH]; cbn [lacks split]; intros Hs.
  - reflexivity.
  - apply andb_prop in Hs as [Hc Hrest].
    apply negb_true_iff in Hc. rewrite Hc, (IH Hrest). reflexivity.
Qed.

Lemma split_first (sep : ascii) (pre rest : string) :
  lacks sep pre = true ->
  split sep (pre ++ String sep rest) = pre :: split sep rest.
Proof.
  induction pre as [|c pre IH]; cbn [lacks split String.append]; intros Hpre.
  - rewrite Ascii.eqb_refl. reflexivity.
  - apply andb_prop in Hpre as [Hc Hpre].
    apply negb_true_iff in Hc. rewrite Hc, (IH Hpre). reflexivity.
Qed.

Lemma lacks_append (sep : ascii) (s t : string) :
  lacks sep (s ++ t) = lacks sep s && lacks sep t.
Proof.
  induction s as [|c s IH]; cbn [lacks String.append].
  - reflexivity.
  - rewrite IH. apply andb_assoc.
Qed.

Lemma append_assoc (a b c : string) : ((a ++ b) ++ c = a ++ (b ++ c))%string.
Proof.
  induction a as [|x a IH]; cbn [String.append].
  - reflexivity.
  - rewrite IH. reflexivity.
Qed.

Local Open Scope string_scope.

Lemma second_piece (head payload : string) :
  lacks ","%char head = true -> lacks ","%char payload = true ->
  nth_error (split ","%char (head ++ "," ++ payload)) 1 = Some payload.
Proof.
  intros Hhead Hpayload.
  change ("," ++ payload) with (String ","%char payload).
  rewrite split_first by assumption.
  rewrite (split_lacks _ payload Hpayload). reflexivity.
Qed.

(** [fileToGenerativePart] takes what stands between the first comma and the
    second comma, or the end: the payload of a data URL, provided neither the
    head of the URL nor the payload has a comma; whatever follows a second
    comma is dropped. *)
Theorem fileToGenerativePart_takes_the_payload (head payload more mime : string) :
  lacks ","%char head = true -> lacks ","%char payload = true ->
  fileToGenerativePart (head ++ "," ++ payload) mime = InlineData (Some payload) mime
  /\ fileToGenerativePart (head ++ "," ++ payload ++ "," ++ more) mime
     = InlineData (Some payload) mime.
Proof.
  intros Hhead Hpayload. unfold fileToGenerativePart. split.
  - rewrite second_piece by assumption. reflexivity.
  - change ("," ++ payload ++ "," ++ more)
      with (String ","%char (payload ++ String ","%char more)).
    rewrite !split_first by assumption. reflexivity.
Qed.

(** For a string without a comma, the empty string among them, there is no
    second piece: the data of the part is [undefined]. *)
Theorem fileToGenerativePart_without_comma (s mime : string) :
  lacks ","%char s = true -> fileToGenerativePart s mime = InlineData None mime.
Proof.
  intros Hs. unfold fileToGenerativePart. rewrite (split_lacks _ s Hs). reflexivity.
Qed.

(** Whatever the SDK does, [editImageWithMask] ends in one of two ways: it
    returns the data URL built from the first part with inline data of the
    first candidate, or it throws an [Error] whose message starts with
    'AI generation failed: ' or is the message for an unknown error.  It never
    lets through what the SDK threw. *)
Theorem editImageWithMask_outcomes
        (generateContent : generateRequest -> outcome answer) (typeError : string)
        (originalImage maskImage : string * string) (prompt : jsstring) :
  match editImageWithMask generateContent typeError originalImage maskImage prompt with
  | Returned resultUrl =>
      exists parts others bytes mime,
        generateContent (serviceRequest originalImage maskImage prompt)
        = Returned (Answer (parts :: others))
        /\ firstInlineData parts = Some (bytes, mime)
        /\ resultUrl = "data:" ++ mime ++ ";base64," ++ bytes
  | Threw t =>
      exists message,
        t = ErrorWith message
        /\ (String.prefix "AI generation failed: " message = true
            \/ message = "An unknown error occurred during AI image generation.")
  end.
Proof.
  unfold editImageWithMask, readAnswer.
  destruct (generateContent (serviceRequest originalImage maskImage prompt))
    as [[[|parts others]]|[message|]].
  - eexists. split; [reflexivity|]. left. apply prefix_append.
  - cbn [candidates].
    destruct (firstInlineData parts) as [[bytes mime]|] eqn:Hfirst.
    + exists parts, others, bytes, mime. repeat split. exact Hfirst.
    + eexists. split; [reflexivity|]. left. apply prefix_append.
  - eexists. split; [reflexivity|]. left. apply prefix_append.
  - eexists. split; [reflexivity|]. right. reflexivity.
Qed.

Lemma firstInlineData_skips (before after : list answerPart)
      (found : string * string) (text : option string) :
  Forall (fun part => partInlineData part = None) before ->
  firstInlineData (before ++ AnswerPart text (Some found) :: after)%list = Some found.
Proof.
  induction 1 as [|part before Hpart _ IH]; cbn [List.app firstInlineData].
  - reflexivity.
  - rewrite Hpart. exact IH.
Qed.

(** The parts of the first candidate are read in order and the first image
    wins: parts without inline data before it are passed over, and neither
    the parts after it nor the other candidates are looked at. *)
Theorem editImageWithMask_returns_the_first_image
        (generateContent : generateRequest -> outcome answer) (typeError : string)
        (originalImage maskImage : string * string) (prompt : jsstring)
        (before after : list answerPart) (others : list (list answerPart))
        (text : option string) (bytes mime : string) :
  Forall (fun part => partInlineData part = None) before ->
  generateContent (serviceRequest originalImage maskImage prompt)
  = Returned (Answer ((before ++ AnswerPart text (Some (bytes, mime)) :: after)%list
                      :: others)) ->
  editImageWithMask generateContent typeError originalImage maskImage prompt
  = Returned ("data:" ++ mime ++ ";base64," ++ bytes).
Proof.
  intros Hbefore Hanswer. unfold editImageWithMask, readAnswer.
  rewrite Hanswer. cbn [candidates].
  rewrite (firstInlineData_skips before after (bytes, mime) text Hbefore).
  reflexivity.
Qed.

(** An answer whose first candidate has no image, and an answer without any
    candidate, both end in an [Error]: the error thrown inside the [try] is
    caught by the [catch] of the same function and wrapped like the errors of
    the SDK. *)
Theorem editImageWithMask_without_image
        (generateContent : generateRequest -> outcome answer) (typeError : string)
        (originalImage maskImage : string * string) (prompt : jsstring)
        (parts : list answerPart) (others : list (list answerPart)) :
  Forall (fun part => partInlineData part = None) parts ->
  (generateContent (serviceRequest originalImage maskImage prompt)
   = Returned (Answer (parts :: others)) ->
   editImageWithMask generateContent typeError originalImage maskImage prompt
   = Threw (ErrorWith
              "AI generation failed: No image data found in the AI response."))
  /\ (generateContent (serviceRequest originalImage maskImage prompt)
      = Returned (Answer []) ->
      editImageWithMask generateContent typeError originalImage maskImage prompt
      = Threw (ErrorWith ("AI generation failed: " ++ typeError))).
Proof.
  intros Hparts.
  assert (Hnone : firstInlineData parts = None).
  { induction Hparts as [|part parts Hpart _ IH]; cbn [firstInlineData].
    - reflexivity.
    - rewrite Hpart. exact IH. }
  unfold editImageWithMask, readAnswer.
  split; intros ->; cbn [candidates]; [rewrite Hnone|]; reflexivity.
Qed.

Section ServiceRequest.
Context {platform : Platform}.

(** From the editor to the request: when the base64 text of the platform
    has no comma and the MIME type of the file has none, the request that
    goes to the model holds the base64 text of the bytes of the file under
    the type of the file, and the base64 text of the PNG of the mask canvas
    under 'image/png', with the data URL heads taken off; the mask is the
    string that [getMaskAsBase64] returns for an editor whose stroke layer
    has pixels. *)
Theorem request_carries_image_and_mask (f : file) (ed : editor) (prompt : jsstring) :
  base64CommaFree platform ->
  lacks ","%char (fileType f) = true ->
  (0 < cwidth (drawingCanvas ed))%nat -> (0 < cheight (drawingCanvas ed))%nat ->
  let mask := toDataURL (fst (renderMask (drawingCanvas ed))) in
  let request :=
    serviceRequest (readAsDataURL f, fileType f) (mask, "image/png") prompt in
  fst (getMaskAsBase64 (Some ed)) = Returned mask
  /\ requestOriginal request = InlineData (Some (base64 (fileBytes f))) (fileType f)
  /\ requestMask request
     = InlineData (Some (base64 (encodePNG (bits (fst (renderMask (drawingCanvas ed)))))))
                  "image/png"
  /\ requestText request = finalPrompt prompt.
Proof.
  intros Hb64 Htype Hw Hh mask request. subst request mask.
  split; [exact (getMaskAsBase64_value ed Hw Hh)|].
  unfold serviceRequest. cbn [requestOriginal requestMask requestText fst snd].
  unfold fileToGenerativePart.
  split; [|split; [|reflexivity]].
  - unfold readAsDataURL.
    set (kind := if String.eqb (fileType f) "" then "application/octet-stream"
                 else fileType f).
    assert (Hkind : lacks ","%char kind = true).
    { subst kind. destruct (String.eqb (fileType f) ""); [reflexivity | exact Htype]. }
    change ("data:" ++ kind ++ ";base64," ++ base64 (fileBytes f))
      with ("data:" ++ kind ++ ";base64" ++ "," ++ base64 (fileBytes f)).
    rewrite <- (append_assoc kind ";base64").
    rewrite <- (append_assoc "data:" (kind ++ ";base64")).
    rewrite second_piece; [reflexivity | | apply Hb64].
    rewrite !lacks_append, Hkind. reflexivity.
  - unfold toDataURL.
    rewrite renderMask_width, renderMask_height.
    destruct (Nat.eqb_spec (cwidth (drawingCanvas ed)) 0); [lia|].
    destruct (Nat.eqb_spec (cheight (drawingCanvas ed)) 0); [lia|].
    cbn [orb].
    f_equal. apply (second_piece "data:image/png;base64"); [reflexivity | apply Hb64].
Qed.

End ServiceRequest.

(** * The plain platform meets the suppositions *)

Lemma plain_coverageInRange : coverageInRange plainPlatform.
Proof.
  split.
  - intros p x y. cbn [fillCoverage plainPlatform]. unfold plainFillCoverage.
    destruct (existsb _ p); lia.
  - intros p w cap join x y. cbn [strokeCoverage plainPlatform].
    unfold plainStrokeCoverage.
    destruct (existsb _ (segmentsFrom None p)); lia.
Qed.

Lemma plain_decodesPixels : decodesPixels plainPlatform.
Proof.
  intros bytes image. cbn [decodeImage plainPlatform]. unfold rawDecode.
  destruct bytes as [|wb [|hb body]]; try discriminate.
  destruct ((0 <? Z.to_nat (zOfByte wb)) && (0 <? Z.to_nat (zOfByte hb))
            && (List.length body =? 4 * (Z.to_nat (zOfByte wb) * Z.to_nat (zOfByte hb))))%nat
    eqn:Hok; [|discriminate].
  intros Himage. injection Himage as <-.
  apply andb_prop in Hok as [Hok _]. apply andb_prop in Hok as [Hw Hh].
  apply Nat.ltb_lt in Hw, Hh. cbn [bw bh mkBitmap]. split; assumption.
Qed.

Lemma sextet_not_comma (n : Z) : Ascii.eqb (sextet n) ","%char = false.
Proof.
  unfold sextet.
  assert (Hk : (Z.to_nat (n mod 64) < 64)%nat).
  { pose proof (Z.mod_pos_bound n 64). lia. }
  generalize dependent (Z.to_nat (n mod 64)). intros k Hk.
  do 64 (destruct k as [|k]; [reflexivity|]).
  lia.
Qed.

Lemma rfc4648_comma_free_upto (n : nat) (bytes : list Byte.byte) :
  (List.length bytes <= n)%nat -> lacks ","%char (rfc4648 bytes) = true.
Proof.
  revert bytes. induction n as [|n IH]; intros bytes Hlen.
  - destruct bytes; [reflexivity | cbn [List.length] in Hlen; lia].
  - destruct bytes as [|a [|b [|c rest]]]; cbn [rfc4648 lacks].
    + reflexivity.
    + rewrite !sextet_not_comma. reflexivity.
    + rewrite !sextet_not_comma. reflexivity.
    + rewrite !sextet_not_comma. cbn [negb andb].
      apply IH. cbn [List.length] in Hlen. lia.
Qed.

Lemma plain_base64CommaFree : base64CommaFree plainPlatform.
Proof.
  intros bytes. cbn [base64 plainPlatform].
  apply (rfc4648_comma_free_upto (List.length bytes)). lia.
Qed.

(** * The further properties at work on the sample data *)

Lemma imageLoaded_resets_the_layers_witness :
  drawingCanvas (imageLoaded (allBlack 2 1) stampedEditor) = resetCanvas 2 1
  /\ getPixel (bits (imageCanvas (imageLoaded (allBlack 2 1) stampedEditor))) 1 0
     = opaqueBlack.
Proof.
  assert (Hx : (1 < bw (allBlack 2 1))%nat) by (vm_compute; lia).
  assert (Hy : (0 < bh (allBlack 2 1))%nat) by (vm_compute; lia).
  pose proof (imageLoaded_resets_the_layers (allBlack 2 1) stampedEditor 1 0 Hx Hy)
    as (Hlayer & _ & _ & Hpixel & _).
  split; [exact Hlayer | exact Hpixel].
Defined.

Lemma strokes_only_add_coverage_witness :
  pa (getPixel (bits (drawingCanvas sampleEditor)) 0 0)
  <= pa (getPixel (bits (drawingCanvas
           (@editorRun plainPlatform
              [PointerDown sampleRect sampleTouch; PointerUp; BrushSlider 5;
               PointerDown sampleRect (MouseEvent 0 0); MaskRequest]
              sampleEditor))) 0 0)
  <= 255.
Proof.
  apply (@strokes_only_add_coverage plainPlatform plain_coverageInRange).
  - repeat constructor; discriminate.
  - split; [reflexivity|]. intros x y.
    change (bits (drawingCanvas sampleEditor)) with (blankBitmap 2 1).
    rewrite getPixel_blank. cbn [pa transparentBlack]. lia.
Defined.

Lemma export_untouched_and_saturated_witness :
  getPixel (bits (fst (renderMask (drawingCanvas sampleEditor)))) 0 0 = opaqueBlack.
Proof.
  apply (export_untouched_and_saturated (drawingCanvas sampleEditor) 0 0).
  - vm_compute. lia.
  - vm_compute. lia.
  - reflexivity.
Defined.

Lemma prompt_message_iff_blank_witness :
  error (fst (@handleGenerate plainPlatform blankPromptApp))
  = Some "Please enter a description of the edit you want to make."%string.
Proof.
  apply (proj2 (@prompt_message_iff_blank plainPlatform blankPromptApp)).
  left. reflexivity.
Defined.

Lemma handleGenerate_calls_the_service_iff_witness :
  snd (@handleGenerate plainPlatform sampleApp) <> None.
Proof.
  assert (Hsize : forall ed, imageEditorRef sampleApp = Some ed ->
            (0 < cwidth (drawingCanvas ed))%nat /\ (0 < cheight (drawingCanvas ed))%nat).
  { intros ed Hed. injection Hed as <-. vm_compute. split; lia. }
  apply (proj2 (proj1 (@handleGenerate_calls_the_service_iff plainPlatform sampleApp
                         Hsize))).
  repeat split; discriminate.
Defined.

Lemma upload_mounts_the_editor_witness :
  imageEditorRef (@render plainPlatform
                    (@handleImageUpload plainPlatform sampleImage initialApp))
  = Some (@loadImage plainPlatform sampleImage initialEditor)
  /\ drawingCanvas (@loadImage plainPlatform sampleImage initialEditor)
     = resetCanvas 2 1.
Proof.
  assert (Htype : startsWith (fileType sampleImage) "image/" = true) by reflexivity.
  assert (Hed : imageEditorRef initialApp = None) by reflexivity.
  pose proof (@upload_mounts_the_editor plainPlatform sampleImage initialApp Htype Hed)
    as (Hmount & _ & _ & Hsome & _).
  split; [exact Hmount|].
  destruct (Hsome (mkBitmap 2 1 (fun x y =>
              rawPixelAt [Byte.xff; Byte.x00; Byte.x00; Byte.xff;
                          Byte.x00; Byte.xff; Byte.x00; Byte.xff] (y * 2 + x)))
              eq_refl) as (Hlayer & _).
  exact Hlayer.
Defined.

Lemma clearMask_then_export_all_black_witness :
  fst (@getMaskAsBase64 plainPlatform
         (Some (clearMask
                  (@editorRun plainPlatform
                     [PointerDown sampleRect sampleTouch;
                      PointerMove sampleRect (MouseEvent 0 0); PointerUp]
                     (imageLoaded (allBlack 2 1) initialEditor)))))
  = Returned ("data:image/png;base64," ++ rfc4648 (rawEncode (allBlack 2 1)))%string.
Proof.
  assert (Hw : (0 < bw (allBlack 2 1))%nat) by (vm_compute; lia).
  assert (Hh : (0 < bh (allBlack 2 1))%nat) by (vm_compute; lia).
  exact (proj2 (@clearMask_then_export_all_black plainPlatform (allBlack 2 1)
                  initialEditor
                  [PointerDown sampleRect sampleTouch;
                   PointerMove sampleRect (MouseEvent 0 0); PointerUp]
                  Hw Hh)).
Defined.

Lemma session_stays_coherent_witness :
  appState (ui (@sessionRun plainPlatform sampleHistory initialSession)) = GENERATING
  /\ appState (ui (@sessionRun plainPlatform sampleHistory initialSession)) <> ERROR.
Proof.
  split; [vm_compute; reflexivity|].
  apply (proj2 (@session_stays_coherent plainPlatform sampleHistory)).
  unfold sampleHistory.
  apply Forall_cons;
    [intros image Himage; exact (plain_decodesPixels _ _ Himage)|].
  repeat (apply Forall_cons; [exact I|]). apply Forall_nil.
Defined.

Lemma handleGenerate_catches_the_export_witness :
  appState (fst (@handleGenerate sizelessPlatform sizelessApp)) = ERROR
  /\ error (fst (@handleGenerate sizelessPlatform sizelessApp))
     = Some "Generation failed: The image argument is a canvas element with a width or height of 0."%string
  /\ snd (@handleGenerate sizelessPlatform sizelessApp) = None.
Proof.
  pose proof (@handleGenerate_catches_the_export sizelessPlatform sizelessApp
                (Uploaded sampleImage "blob:image/png")
                (@loadImage sizelessPlatform sampleImage initialEditor))
    as Hcatch.
  destruct Hcatch as (_ & Hcall & Hstate & Herror & _).
  - reflexivity.
  - reflexivity.
  - reflexivity.
  - left. reflexivity.
  - split; [exact Hstate | split; [exact Herror | exact Hcall]].
Defined.

Lemma failed_call_leaves_the_spinner_witness :
  pending pendingSession = Some pendingCall
  /\ @sessionRun plainPlatform
       [ServiceSettled (@callService plainPlatform textService "t is undefined"
                          pendingCall);
        GenerateClick; StartOverClick; TryAgainClick; FilesChosen [sampleImage];
        PromptTyped [120%N]]
       pendingSession
     = Session (ui pendingSession) None.
Proof.
  assert (Hcall : pending pendingSession = Some pendingCall)
    by (vm_compute; reflexivity).
  split; [exact Hcall|].
  apply (@failed_call_leaves_the_spinner plainPlatform pendingSession pendingCall
           textService "t is undefined"
           (ErrorWith "AI generation failed: No image data found in the AI response.")).
  - vm_compute. reflexivity.
  - exact Hcall.
  - reflexivity.
Defined.

Lemma fileToGenerativePart_takes_the_payload_witness :
  fileToGenerativePart "data:image/png;base64,QUJD" "image/png"
  = InlineData (Some "QUJD"%string) "image/png"
  /\ fileToGenerativePart "data:image/png;base64,QUJD,WFla" "image/png"
     = InlineData (Some "QUJD"%string) "image/png".
Proof.
  apply (fileToGenerativePart_takes_the_payload "data:image/png;base64" "QUJD" "WFla"
           "image/png"); reflexivity.
Defined.

Lemma fileToGenerativePart_without_comma_witness :
  fileToGenerativePart "" "image/png" = InlineData None "image/png".
Proof.
  apply (fileToGenerativePart_without_comma "" "image/png"). reflexivity.
Defined.

Lemma editImageWithMask_returns_the_first_image_witness :
  editImageWithMask imageService "t is undefined" ("data:,a", "image/png")
                    ("data:,b", "image/png") []
  = Returned "data:image/png;base64,QUJD"%string.
Proof.
  apply (editImageWithMask_returns_the_first_image imageService "t is undefined"
           ("data:,a", "image/png") ("data:,b", "image/png") []
           [AnswerPart (Some "Here is the edit.") None]
           [AnswerPart None (Some ("WFla", "image/jpeg"))]
           [[AnswerPart None (Some ("R0hJ", "image/webp"))]]
           None "QUJD" "image/png").
  - repeat constructor.
  - reflexivity.
Defined.

Lemma editImageWithMask_without_image_witness :
  editImageWithMask textService "t is undefined" ("data:,a", "image/png")
                    ("data:,b", "image/png") []
  = Threw (ErrorWith "AI generation failed: No image data found in the AI response.").
Proof.
  apply (proj1 (editImageWithMask_without_image textService "t is undefined"
                  ("data:,a", "image/png") ("data:,b", "image/png") []
                  [AnswerPart (Some "I cannot edit this image.") None] []
                  ltac:(repeat constructor))).
  reflexivity.
Defined.

Lemma request_carries_image_and_mask_witness :
  fst (@getMaskAsBase64 plainPlatform (Some sampleEditor))
  = Returned (@toDataURL plainPlatform (fst (renderMask (drawingCanvas sampleEditor))))
  /\ requestMask
       (serviceRequest (@readAsDataURL plainPlatform sampleImage, "image/png")
          (@toDataURL plainPlatform (fst (renderMask (drawingCanvas sampleEditor))),
           "image/png")
          [111%N; 107%N])
     = InlineData (Some (rfc4648 (rawEncode (allBlack 2 1)))) "image/png".
Proof.
  assert (Htype : lacks ","%char (fileType sampleImage) = true) by reflexivity.
  assert (Hw : (0 < cwidth (drawingCanvas sampleEditor))%nat) by (vm_compute; lia).
  assert (Hh : (0 < cheight (drawingCanvas sampleEditor))%nat) by (vm_compute; lia).
  pose proof (@request_carries_image_and_mask plainPlatform sampleImage sampleEditor
                [111%N; 107%N] plain_base64CommaFree Htype Hw Hh)
    as (Hreturned & _ & Hmask & _).
  split; [exact Hreturned | exact Hmask].
Defined.
